(** * The record-linkage pipeline of the NFL draft analysis notebook

    A shallow embedding of the data-cleaning cells of
    [NFL_draft_statistical_analysis_(2000-2021).py]: loading the two
    tables, the frame-wide [replace], the school reconciliation loop,
    the left [merge], [drop], [drop_duplicates] and the height decoder
    [convert_height_inches].

    Tables are lists of rows in frame order.  A cell is a dynamically
    typed value: missing, text, or a number given by its exact value.
    Frames are modelled cell by cell: what the frame library decides
    from the dtype of a whole column (a join it refuses for key columns
    of incompatible dtypes) is outside the model. *)

From Stdlib Require Import ZArith QArith Qcanon String Ascii List Bool Lia.
From Stdlib Require Import DecimalString DecimalNat.
Import ListNotations.

Close Scope Q_scope.
Open Scope string_scope.
Open Scope list_scope.

(** ** Cells *)

(** A cell of a frame.  [NaN] is the missing value; [Str] is text (one
    [ascii] per character, code points below 256); [Num] is a number,
    integer or float, identified with its exact rational value, so that
    [2015] and [2015.0] are the same cell, as they are for [==], for the
    join and for [drop_duplicates]. *)
Inductive cell : Type :=
  | NaN
  | Str (s : string)
  | Num (q : Qc).

Definition Int (z : Z) : cell := Num (Q2Qc (inject_Z z)).

Definition cell_eq_dec (a b : cell) : {a = b} + {a <> b}.
Proof. decide equality; [apply string_dec | apply Qc_eq_dec]. Defined.

(** Equality of join keys and of [duplicated]: missing equals missing. *)
Definition cell_eqb (a b : cell) : bool :=
  if cell_eq_dec a b then true else false.

(** Element-wise [==] of a column with a scalar: a missing value on either
    side compares unequal. *)
Definition elem_eq (a b : cell) : bool :=
  match a, b with
  | NaN, _ | _, NaN => false
  | _, _ => cell_eqb a b
  end.

Definition of_option (r : option Z) : cell :=
  match r with Some z => Int z | None => NaN end.

(** ** Exceptions *)

(** The exceptions of the modelled code, and [MalformedSourceError],
    which the specification names and no line of the code raises. *)
Inductive exn : Type :=
  | AttributeError
  | ValueError
  | FileNotFoundError
  | EmptyDataError
  | ParserError
  | IndexError
  | MalformedSourceError.

Inductive outcome (A : Type) : Type :=
  | Returns (a : A)
  | Raises (e : exn).

Arguments Returns {A} a.
Arguments Raises {A} e.

Definition bind {A B : Type} (m : outcome A) (k : A -> outcome B) : outcome B :=
  match m with
  | Returns a => k a
  | Raises e => Raises e
  end.

Notation "x <- m ;; k" := (bind m (fun x => k))
  (at level 61, m at next level, right associativity).

Fixpoint mapM {A B : Type} (f : A -> outcome B) (l : list A) : outcome (list B) :=
  match l with
  | [] => Returns []
  | a :: l' => b <- f a ;; bs <- mapM f l' ;; Returns (b :: bs)
  end.

(** [try: body except: handler] with a bare [except]. *)
Definition try_except {A : Type} (body : outcome A) (handler : A) : outcome A :=
  match body with
  | Returns a => Returns a
  | Raises _ => Returns handler
  end.

(** ** Text primitives *)

(** [str.split(sep)] for a one-character separator. *)
Fixpoint split (sep : ascii) (s : string) : list string :=
  match s with
  | EmptyString => [EmptyString]
  | String c s' =>
      if Ascii.eqb c sep then EmptyString :: split sep s'
      else match split sep s' with
           | [] => [String c EmptyString]
           | w :: ws => String c w :: ws
           end
  end.

(** [height.split('-')]: only text has the method. *)
Definition py_split (height : cell) (sep : ascii) : outcome (list string) :=
  match height with
  | Str s => Returns (split sep s)
  | _ => Raises AttributeError
  end.

(** White space that [int] strips from both ends: tab to carriage
    return, space, NEL and the no-break space. *)
Definition is_space (c : ascii) : bool :=
  let n := nat_of_ascii c in
  ((9 <=? n) && (n <=? 13) || (n =? 32) || (n =? 133) || (n =? 160))%nat.

Definition digit_value (c : ascii) : option Z :=
  let n := nat_of_ascii c in
  if ((48 <=? n) && (n <=? 57))%nat then Some (Z.of_nat (n - 48)) else None.

Fixpoint lstrip (s : string) : string :=
  match s with
  | EmptyString => EmptyString
  | String c s' => if is_space c then lstrip s' else s
  end.

Fixpoint string_rev (s : string) : string :=
  match s with
  | EmptyString => EmptyString
  | String c s' => string_rev s' ++ String c EmptyString
  end.

Definition rstrip (s : string) : string := string_rev (lstrip (string_rev s)).

Definition strip (s : string) : string := rstrip (lstrip s).

(** The digits of a decimal literal, most significant first.  Single
    underscores may separate digits; [after_digit] records whether the
    previous character was a digit, so that a leading, doubled or
    trailing underscore and the empty literal are rejected. *)
Fixpoint digits (acc : Z) (after_digit : bool) (s : string) : option Z :=
  match s with
  | EmptyString => if after_digit then Some acc else None
  | String c s' =>
      match digit_value c with
      | Some d => digits (10 * acc + d)%Z true s'
      | None =>
          if Ascii.eqb c "_" then
            if after_digit then digits acc false s' else None
          else None
      end
  end.

(** [int(text)] in base ten, for text of code points below 256:
    surrounding white space, an optional sign, then the digits.  The
    integers are unbounded, as in the language; the interpreter's
    adjustable cap on the length of a literal is not part of the
    model. *)
Definition py_int (text : string) : outcome Z :=
  let body :=
    match strip text with
    | String "+" r => digits 0%Z false r
    | String "-" r => option_map Z.opp (digits 0%Z false r)
    | r => digits 0%Z false r
    end in
  match body with
  | Some z => Returns z
  | None => Raises ValueError
  end.

(** ** Height decoding *)

(** The body of the [try]: [feet, inches = map(int, height.split('-'))]
    and the sum.  Unpacking anything but two values is a [ValueError]. *)
Definition convert_height_inches_body (height : cell) : outcome (option Z) :=
  parts <- py_split height "-" ;;
  values <- mapM py_int parts ;;
  match values with
  | [feet; inches] =>
      let total_inches := (feet * 12 + inches)%Z in
      Returns (Some total_inches)
  | _ => Raises ValueError
  end.

Definition convert_height_inches (height : cell) : outcome (option Z) :=
  try_except (convert_height_inches_body height) None.

(** ** The two source tables and the merged table *)

(** A row of the draft picks frame [df]. *)
Module Draft.
Record t : Type := mk {
  Year : cell;
  Round : cell;
  Overall : cell;
  Name : cell;
  Position : cell;
  School : cell;
  Team : cell
}.

(** The [left_on] columns. *)
Definition key (row : t) : cell * cell * cell :=
  (Name row, School row, Year row).

(** A function applied to every cell of the row. *)
Definition map_cells (f : cell -> cell) (row : t) : t :=
  mk (f (Year row)) (f (Round row)) (f (Overall row)) (f (Name row))
     (f (Position row)) (f (School row)) (f (Team row)).
End Draft.

(** A row of the combine frame [combine_df]. *)
Module Combine.
Record t : Type := mk {
  Player : cell;
  Pos : cell;
  School : cell;
  Ht : cell;
  Wt : cell;
  Forty_yd : cell;
  Vertical : cell;
  Bench : cell;
  Broad_Jump : cell;
  Cone_3 : cell;
  Shuttle : cell;
  draft_year : cell
}.

(** The [right_on] columns. *)
Definition key (row : t) : cell * cell * cell :=
  (Player row, School row, draft_year row).

Definition set_School (v : cell) (row : t) : t :=
  mk (Player row) (Pos row) v (Ht row) (Wt row) (Forty_yd row)
     (Vertical row) (Bench row) (Broad_Jump row) (Cone_3 row)
     (Shuttle row) (draft_year row).
End Combine.

(** A row of [merged_data] as [pd.merge] returns it: the columns of [df],
    then those of [combine_df]; [School] is a key on both sides and
    appears once. *)
Module Merged.
Record t : Type := mk {
  Year : cell;
  Round : cell;
  Overall : cell;
  Name : cell;
  Position : cell;
  School : cell;
  Team : cell;
  Player : cell;
  Pos : cell;
  Ht : cell;
  Wt : cell;
  Forty_yd : cell;
  Vertical : cell;
  Bench : cell;
  Broad_Jump : cell;
  Cone_3 : cell;
  Shuttle : cell;
  draft_year : cell
}.

(** The columns that came from [df]. *)
Definition draft (row : t) : Draft.t :=
  Draft.mk (Year row) (Round row) (Overall row) (Name row)
           (Position row) (School row) (Team row).

(** The combine measurements. *)
Definition measurements (row : t) : list cell :=
  [Ht row; Wt row; Forty_yd row; Vertical row; Bench row;
   Broad_Jump row; Cone_3 row; Shuttle row].
End Merged.

(** A row of [merged_data] once [Pos], [draft_year] and [Player] are
    dropped. *)
Module Output.
Record t : Type := mk {
  Year : cell;
  Round : cell;
  Overall : cell;
  Name : cell;
  Position : cell;
  School : cell;
  Team : cell;
  Ht : cell;
  Wt : cell;
  Forty_yd : cell;
  Vertical : cell;
  Bench : cell;
  Broad_Jump : cell;
  Cone_3 : cell;
  Shuttle : cell
}.

(** The [subset] columns of [drop_duplicates]. *)
Definition key (row : t) : cell * cell * cell :=
  (Name row, School row, Year row).

(** The columns that came from [df]. *)
Definition draft (row : t) : Draft.t :=
  Draft.mk (Year row) (Round row) (Overall row) (Name row)
           (Position row) (School row) (Team row).

(** The combine measurements. *)
Definition measurements (row : t) : list cell :=
  [Ht row; Wt row; Forty_yd row; Vertical row; Bench row;
   Broad_Jump row; Cone_3 row; Shuttle row].

Definition set_Ht (v : cell) (row : t) : t :=
  mk (Year row) (Round row) (Overall row) (Name row) (Position row)
     (School row) (Team row) v (Wt row) (Forty_yd row) (Vertical row)
     (Bench row) (Broad_Jump row) (Cone_3 row) (Shuttle row).
End Output.

Definition key : Type := (cell * cell * cell)%type.

Definition key_eq_dec (a b : key) : {a = b} + {a <> b}.
Proof. decide equality; [apply cell_eq_dec | decide equality; apply cell_eq_dec]. Defined.

Definition key_eqb (a b : key) : bool :=
  if key_eq_dec a b then true else false.

(** ** Frame operations *)

(** Boolean indexing [frame[mask]]. *)
Fixpoint mask_select {A : Type} (rows : list A) (mask : list bool) : list A :=
  match rows, mask with
  | r :: rows', b :: mask' =>
      if b then r :: mask_select rows' mask' else mask_select rows' mask'
  | _, _ => []
  end.

(** [frame.loc[mask, column] = value], with [set] the column update. *)
Fixpoint loc_set {A : Type} (set : A -> A) (rows : list A) (mask : list bool)
  : list A :=
  match rows, mask with
  | r :: rows', b :: mask' =>
      (if b then set r else r) :: loc_set set rows' mask'
  | _, _ => rows
  end.

Definition empty {A : Type} (rows : list A) : bool :=
  match rows with [] => true | _ => false end.

(** ** Normalizer: team aliasing *)

(** [replace(to_replace, value)] on one cell: text equal to [to_replace]
    becomes [value]. *)
Definition replace_cell (to_replace value : string) (c : cell) : cell :=
  match c with
  | Str s => if String.eqb s to_replace then Str value else c
  | _ => c
  end.

(** [df.replace(to_replace = ..., value = ...)]: every column of every
    row. *)
Definition replace (to_replace value : string) (df : list Draft.t)
  : list Draft.t :=
  map (Draft.map_cells (replace_cell to_replace value)) df.

(** [df = df.replace(to_replace = 'TEAM', value = 'COMMANDERS')]. *)
Definition team_aliasing (df : list Draft.t) : list Draft.t :=
  replace "TEAM" "COMMANDERS" df.

(** ** Linker: school reconciliation *)

(** [(combine_df['Player'] == row['Name']) &
     (combine_df['draft_year'] == row['Year'])]. *)
Definition matching_row_index (combine_df : list Combine.t) (row : Draft.t)
  : list bool :=
  map (fun c => elem_eq (Combine.Player c) (Draft.Name row)
                && elem_eq (Combine.draft_year c) (Draft.Year row))
      combine_df.

(** One iteration of the loop over [df.iterrows()]. *)
Definition reconcile_row (combine_df : list Combine.t) (row : Draft.t)
  : list Combine.t :=
  let mask := matching_row_index combine_df row in
  let matching_row := mask_select combine_df mask in
  if negb (empty matching_row)
  then loc_set (Combine.set_School (Draft.School row)) combine_df mask
  else combine_df.

(** The whole loop: the rows of [df] in order, [combine_df] updated in
    place. *)
Definition reconcile_schools (df : list Draft.t) (combine_df : list Combine.t)
  : list Combine.t :=
  fold_left reconcile_row df combine_df.

(** ** Merger *)

(** The row built from a draft row and a matching combine row. *)
Definition join_row (d : Draft.t) (c : Combine.t) : Merged.t :=
  Merged.mk (Draft.Year d) (Draft.Round d) (Draft.Overall d) (Draft.Name d)
            (Draft.Position d) (Draft.School d) (Draft.Team d)
            (Combine.Player c) (Combine.Pos c) (Combine.Ht c) (Combine.Wt c)
            (Combine.Forty_yd c) (Combine.Vertical c) (Combine.Bench c)
            (Combine.Broad_Jump c) (Combine.Cone_3 c) (Combine.Shuttle c)
            (Combine.draft_year c).

(** The row built from a draft row without a match: the right-hand
    columns are missing. *)
Definition unmatched_row (d : Draft.t) : Merged.t :=
  Merged.mk (Draft.Year d) (Draft.Round d) (Draft.Overall d) (Draft.Name d)
            (Draft.Position d) (Draft.School d) (Draft.Team d)
            NaN NaN NaN NaN NaN NaN NaN NaN NaN NaN NaN.

(** The combine rows whose key equals that of [d], in frame order. *)
Definition matches (d : Draft.t) (combine_df : list Combine.t)
  : list Combine.t :=
  filter (fun c => key_eqb (Draft.key d) (Combine.key c)) combine_df.

Definition merge_row (combine_df : list Combine.t) (d : Draft.t)
  : list Merged.t :=
  match matches d combine_df with
  | [] => [unmatched_row d]
  | cs => map (join_row d) cs
  end.

(** [pd.merge(df, combine_df, how='left', left_on=['Name', 'School',
    'Year'], right_on=['Player', 'School', 'draft_year'])]: the left rows
    in order, each with its matches in the order of the right frame. *)
Definition merge (df : list Draft.t) (combine_df : list Combine.t)
  : list Merged.t :=
  flat_map (merge_row combine_df) df.

(** [merged_data.drop(['Pos', 'draft_year', 'Player'], axis=1)]. *)
Definition drop_row (m : Merged.t) : Output.t :=
  Output.mk (Merged.Year m) (Merged.Round m) (Merged.Overall m)
            (Merged.Name m) (Merged.Position m) (Merged.School m)
            (Merged.Team m) (Merged.Ht m) (Merged.Wt m) (Merged.Forty_yd m)
            (Merged.Vertical m) (Merged.Bench m) (Merged.Broad_Jump m)
            (Merged.Cone_3 m) (Merged.Shuttle m).

Definition drop (merged_data : list Merged.t) : list Output.t :=
  map drop_row merged_data.

(** [duplicated(subset=['Name', 'School', 'Year'], keep='first')]: a row
    is marked when its key was seen on an earlier row. *)
Fixpoint duplicated_from (seen : list key) (rows : list Output.t) : list bool :=
  match rows with
  | [] => []
  | r :: rows' =>
      if in_dec key_eq_dec (Output.key r) seen
      then true :: duplicated_from seen rows'
      else false :: duplicated_from (Output.key r :: seen) rows'
  end.

Definition duplicated (rows : list Output.t) : list bool :=
  duplicated_from [] rows.

(** [drop_duplicates(subset=['Name', 'School', 'Year'], keep='first')]. *)
Definition drop_duplicates (rows : list Output.t) : list Output.t :=
  mask_select rows (map negb (duplicated rows)).

(** [Series.apply(func)]: [func] on each value in turn; [None] is stored
    as missing. *)
Definition Series_apply (func : cell -> outcome (option Z)) (column : list cell)
  : outcome (list cell) :=
  mapM (fun v => r <- func v ;; Returns (of_option r)) column.

(** Assignment of a column to a frame of the same length. *)
Fixpoint assign_Ht (rows : list Output.t) (column : list cell) : list Output.t :=
  match rows, column with
  | r :: rows', v :: column' => Output.set_Ht v r :: assign_Ht rows' column'
  | _, _ => []
  end.

(** [merged_data['Ht'] = merged_data['Ht'].apply(convert_height_inches)]. *)
Definition decode_heights (merged_data : list Output.t)
  : outcome (list Output.t) :=
  column <- Series_apply convert_height_inches (map Output.Ht merged_data) ;;
  Returns (assign_Ht merged_data column).

(** Cells 14 to 17: join, prune, deduplicate. *)
Definition Merger (df : list Draft.t) (combine_df : list Combine.t)
  : list Output.t :=
  drop_duplicates (drop (merge df combine_df)).

(** Cells 7 to 18 on two loaded tables that carry every column the
    cells read, with key columns the join accepts; a column that is
    absent, or key columns of incompatible dtypes, make the cells raise
    and are outside this model. *)
Definition pipeline (df : list Draft.t) (combine_df : list Combine.t)
  : outcome (list Output.t) :=
  let df := team_aliasing df in
  let combine_df := reconcile_schools df combine_df in
  decode_heights (Merger df combine_df).

(** ** Source Loader *)

Module Loader.














Section ReadCsv.

(** The reader's conversion of the raw text of one column into typed
    cells. *)
Variable infer_column : list string -> list cell.



End ReadCsv.






End Loader.

(** ** The claims as the specification words them *)

(** Whether [c] occurs in [s]. *)
Fixpoint contains (c : ascii) (s : string) : bool :=
  match s with
  | EmptyString => false
  | String c' s' => Ascii.eqb c' c || contains c s'
  end.

(** Decimal rendering of a natural number. *)
Definition decimal (n : nat) : string :=
  NilEmpty.string_of_uint (Nat.to_uint n).

(** A plain integer: a non-empty run of decimal digits, with the value
    the Standard Library's decimal reader gives it. *)
Definition plain_integer (text : string) (n : Z) : Prop :=
  text <> EmptyString /\
  exists u, NilEmpty.uint_of_string text = Some u /\ n = Z.of_nat (Nat.of_uint u).

(** The form of the claim: [<feet>-<inches>], two plain integers and one
    dash. *)
Definition plain_height (text : string) (feet inches : Z) : Prop :=
  exists a b : string,
    text = (a ++ String "-" b)%string /\
    plain_integer a feet /\ plain_integer b inches.

(** C5 as worded: the texts of that form decode to feet * 12 + inches
    and every other value decodes to missing. *)
Definition decodes_plain_heights_only : Prop :=
  (forall text feet inches,
     plain_height text feet inches ->
     convert_height_inches (Str text) = Returns (Some (feet * 12 + inches)%Z)) /\
  (forall height,
     (forall text feet inches,
        height = Str text -> ~ plain_height text feet inches) ->
     convert_height_inches height = Returns None).

(** The white space around an integer: tab, line feed, vertical tab,
    form feed, carriage return, space, next line, no-break space. *)
Definition white_space (c : ascii) : Prop :=
  In (nat_of_ascii c) [9; 10; 11; 12; 13; 32; 133; 160]%nat.

Fixpoint blank (s : string) : Prop :=
  match s with
  | EmptyString => True
  | String c s' => white_space c /\ blank s'
  end.

(** An integer as a reader of integers tolerates it: white space on
    both sides, at most a plus sign, then groups of digits with single
    underscores between them; its value is that of the digits. *)
Definition int_text (text : string) (n : Z) : Prop :=
  exists (lead sign trail : string) (groups : list string),
    text = (lead ++ sign ++ String.concat "_" groups ++ trail)%string /\
    blank lead /\ blank trail /\
    (sign = EmptyString \/ sign = "+") /\
    groups <> [] /\
    Forall (fun g => exists k, plain_integer g k) groups /\
    plain_integer (String.concat EmptyString groups) n.

(** The amended form: two such integers and one dash. *)
Definition height_text (text : string) (feet inches : Z) : Prop :=
  exists a b : string,
    text = (a ++ String "-" b)%string /\
    int_text a feet /\ int_text b inches.

(** What the decoder itself reads off a text: the two pieces around its
    one dash and what [py_int] returns on each.  A device of the proofs
    below, not a form of the specification. *)
Definition decoder_reads (text : string) (feet inches : Z) : Prop :=
  exists a b : string,
    text = (a ++ String "-" b)%string /\
    contains "-" a = false /\ contains "-" b = false /\
    py_int a = Returns feet /\ py_int b = Returns inches.

(** Juxtaposition of two digit sequences. *)
Fixpoint uapp (u v : Decimal.uint) : Decimal.uint :=
  match u with
  | Decimal.Nil => v
  | Decimal.D0 u' => Decimal.D0 (uapp u' v)
  | Decimal.D1 u' => Decimal.D1 (uapp u' v)
  | Decimal.D2 u' => Decimal.D2 (uapp u' v)
  | Decimal.D3 u' => Decimal.D3 (uapp u' v)
  | Decimal.D4 u' => Decimal.D4 (uapp u' v)
  | Decimal.D5 u' => Decimal.D5 (uapp u' v)
  | Decimal.D6 u' => Decimal.D6 (uapp u' v)
  | Decimal.D7 u' => Decimal.D7 (uapp u' v)
  | Decimal.D8 u' => Decimal.D8 (uapp u' v)
  | Decimal.D9 u' => Decimal.D9 (uapp u' v)
  end.

(** The groups after the first, each behind its underscore. *)
Fixpoint more_groups (us : list Decimal.uint) : string :=
  match us with
  | [] => EmptyString
  | v :: us' => String "_" (NilEmpty.string_of_uint v ++ more_groups us')
  end.

Fixpoint join (sep : ascii) (parts : list string) : string :=
  match parts with
  | [] => EmptyString
  | [a] => a
  | a :: parts' => a ++ String sep (join sep parts')
  end.

(** A numeral is a non-empty run of digit characters. *)
Fixpoint all_digits (s : string) : bool :=
  match s with
  | EmptyString => true
  | String c s' => match digit_value c with Some _ => all_digits s' | None => false end
  end.

(** The match test of the loop for one combine row and one draft row. *)
Definition linked (c : Combine.t) (d : Draft.t) : bool :=
  elem_eq (Combine.Player c) (Draft.Name d)
  && elem_eq (Combine.draft_year c) (Draft.Year d).

(** What one iteration does to one combine row. *)
Definition relink (c : Combine.t) (d : Draft.t) : Combine.t :=
  if linked c d then Combine.set_School (Draft.School d) c else c.

(** The rows that [drop_duplicates] keeps when the keys in [seen] count as
    met already. *)
Definition dedup_from (seen : list key) (rows : list Output.t) : list Output.t :=
  mask_select rows (map negb (duplicated_from seen rows)).

(** A list obtained from another by deleting elements. *)
Inductive subsequence {A : Type} : list A -> list A -> Prop :=
  | subsequence_nil : subsequence [] []
  | subsequence_keep a l l' : subsequence l l' -> subsequence (a :: l) (a :: l')
  | subsequence_skip a l l' : subsequence l l' -> subsequence l (a :: l').

(** ** Sample tables *)

Definition jane_draft : Draft.t :=
  Draft.mk (Int 2015) (Int 1) (Int 5) (Str "Jane Doe") (Str "QB")
           (Str "Boston College") (Str "TEAM").

(** A second draft row with the name and year of [jane_draft] and another
    school. *)
Definition jane_draft_other : Draft.t :=
  Draft.mk (Int 2015) (Int 7) (Int 230) (Str "Jane Doe") (Str "DB")
           (Str "Boston University") (Str "BEARS").

Definition john_draft : Draft.t :=
  Draft.mk (Int 2001) (Int 2) (Int 40) (Str "John Roe") (Str "T")
           (Str "Boston College") (Str "BEARS").

Definition jane_combine : Combine.t :=
  Combine.mk (Str "Jane Doe") (Str "QB") (Str "Boston Col.") (Str "6-2")
             (Int 210) NaN (Int 31) NaN (Int 110) NaN NaN (Int 2015).

(** A second combine row with the key of [jane_combine] and other
    measurements. *)
Definition jane_combine_again : Combine.t :=
  Combine.mk (Str "Jane Doe") (Str "S") (Str "Boston Col.") (Str "5-11")
             (Int 190) NaN NaN (Int 20) NaN NaN NaN (Int 2015).

(** A draft row whose school is spelled like the old team label. *)
Definition team_school_draft : Draft.t :=
  Draft.mk (Int 2015) (Int 3) (Int 70) (Str "Sam Poe") (Str "QB")
           (Str "TEAM") (Str "BEARS").

(** ** The claims that fail, as the specification words them *)

(** Two draft rows are about the same (name, year). *)
Definition same_player (d' d : Draft.t) : bool :=
  elem_eq (Draft.Name d') (Draft.Name d)
  && elem_eq (Draft.Year d') (Draft.Year d).

(** After the Linker pass every combine row agrees on school with every
    draft row of its name and year. *)
Definition schools_reconciled (df : list Draft.t) (combine_df : list Combine.t)
  : Prop :=
  forall d c, In d df -> In c (reconcile_schools df combine_df) ->
              linked c d = true -> Combine.School c = Draft.School d.

(** Team aliasing leaves every field but [Team] as it was. *)
Definition only_Team_changes (df : list Draft.t) : Prop :=
  map (fun d => (Draft.Name d, Draft.Year d, Draft.Round d, Draft.Overall d,
                 Draft.Position d, Draft.School d)) (team_aliasing df)
  = map (fun d => (Draft.Name d, Draft.Year d, Draft.Round d, Draft.Overall d,
                   Draft.Position d, Draft.School d)) df.


(** ** The duplicate checks of cells 9 and 16 *)

Definition Draft_eq_dec (a b : Draft.t) : {a = b} + {a <> b}.
Proof. decide equality; apply cell_eq_dec. Defined.

(** [df.duplicated()]: all columns, [keep='first']; a row is marked when
    an equal row came earlier. *)
Fixpoint duplicated_rows_from (seen : list Draft.t) (df : list Draft.t)
  : list bool :=
  match df with
  | [] => []
  | r :: df' =>
      if in_dec Draft_eq_dec r seen
      then true :: duplicated_rows_from seen df'
      else false :: duplicated_rows_from (r :: seen) df'
  end.

(** Cell 9: [duplicate_rows = df[df.duplicated()]]. *)
Definition exact_duplicates (df : list Draft.t) : list Draft.t :=
  mask_select df (duplicated_rows_from [] df).

(** Cell 9: the line printed first, by the test
    [if not duplicate_rows.empty]. *)
Definition exact_duplicates_message (df : list Draft.t) : string :=
  if negb (empty (exact_duplicates df))
  then "Exact duplicates were found:"
  else "No exact duplicates were found.".

(** The [subset] columns on a row of [merged_data] before the drop. *)
Definition Merged_key (m : Merged.t) : key :=
  (Merged.Name m, Merged.School m, Merged.Year m).

(** [merged_data.duplicated(subset=['Name', 'School', 'Year'],
    keep=False)]: a row is marked when its key occurs on more than one
    row. *)
Definition duplicated_all (merged_data : list Merged.t) : list bool :=
  map (fun r => (1 <? count_occ key_eq_dec (map Merged_key merged_data)
                                (Merged_key r))%nat)
      merged_data.

(** Cell 16: [merged_data[merged_data.duplicated(..., keep=False)]]. *)
Definition duplicate_rows (merged_data : list Merged.t) : list Merged.t :=
  mask_select merged_data (duplicated_all merged_data).

(** ** The subsets of the analysis cells *)

(** Cell 22: [merged_data[merged_data['Round'] == 1]]. *)
Definition first_round_data (merged_data : list Output.t) : list Output.t :=
  mask_select merged_data
    (map (fun r => elem_eq (Output.Round r) (Int 1)) merged_data).

(** Cell 27: [merged_data[merged_data['Position'] == 'QB']]. *)
Definition qb_data (merged_data : list Output.t) : list Output.t :=
  mask_select merged_data
    (map (fun r => elem_eq (Output.Position r) (Str "QB")) merged_data).

(** [Series.isin(values)] on one cell. *)
Definition isin (values : list cell) (c : cell) : bool :=
  existsb (cell_eqb c) values.

Definition successful_qb_teams : list cell :=
  [Str "PATRIOTS"; Str "SAINTS"; Str "STEELERS"].

Definition poor_qb_teams : list cell :=
  [Str "BEARS"; Str "BROWNS"; Str "JAGUARS"].

(** Cell 329: [merged_data[merged_data['Team'].isin(...)]]. *)
Definition good_qb (merged_data : list Output.t) : list Output.t :=
  mask_select merged_data
    (map (fun r => isin successful_qb_teams (Output.Team r)) merged_data).

Definition bad_qb (merged_data : list Output.t) : list Output.t :=
  mask_select merged_data
    (map (fun r => isin poor_qb_teams (Output.Team r)) merged_data).

(** ** The school counts of cell 327 *)

(** A dictionary from schools to counts, in insertion order. *)
Definition dict : Type := list (cell * nat).

(** [d[k] = v]: an existing key keeps its place. *)
Fixpoint dict_set (d : dict) (k : cell) (v : nat) : dict :=
  match d with
  | [] => [(k, v)]
  | (k', v') :: d' =>
      if cell_eqb k' k then (k', v) :: d' else (k', v') :: dict_set d' k v
  end.

(** [d[k]]; [None] stands for the [KeyError] of a missing key. *)
Fixpoint dict_get (d : dict) (k : cell) : option nat :=
  match d with
  | [] => None
  | (k', v') :: d' => if cell_eqb k' k then Some v' else dict_get d' k
  end.

(** [len(merged_data[merged_data['School'] == school])]. *)
Definition overall_count (merged_data : list Output.t) (school : cell) : nat :=
  length (mask_select merged_data
            (map (fun r => elem_eq (Output.School r) school) merged_data)).

(** [len(merged_data[(merged_data['School'] == school)
                     & (merged_data['Round'] == 1)])]. *)
Definition first_round_count (merged_data : list Output.t) (school : cell)
  : nat :=
  length (mask_select merged_data
            (map (fun r => elem_eq (Output.School r) school
                           && elem_eq (Output.Round r) (Int 1))
                 merged_data)).

(** One iteration of [for school in top_20_schools], on the pair
    [(school_draft_counts, school_first_round_counts)]. *)
Definition count_school (merged_data : list Output.t) (counts : dict * dict)
    (school : cell) : dict * dict :=
  (dict_set (fst counts) school (overall_count merged_data school),
   dict_set (snd counts) school (first_round_count merged_data school)).

(** The loop, for the schools that [value_counts().head(20).index]
    yields; that index holds no missing value and no value twice, and
    its order among equal counts is left to the library. *)
Definition school_counts (merged_data : list Output.t)
    (top_20_schools : list cell) : dict * dict :=
  fold_left (count_school merged_data) top_20_schools ([], []).

(** The report loop over [school_draft_counts.items()], each line with
    [school_first_round_counts[school]]. *)
Fixpoint report_lines (school_draft_counts school_first_round_counts : dict)
  : option (list (cell * nat * nat)) :=
  match school_draft_counts with
  | [] => Some []
  | (school, draft_count) :: items =>
      match dict_get school_first_round_counts school with
      | None => None
      | Some first =>
          match report_lines items school_first_round_counts with
          | None => None
          | Some lines => Some ((school, draft_count, first) :: lines)
          end
      end
  end.

(** ** The tick formatter of cell 25 *)

(** [format_func(value, tick_number)]: [int(value)].  A number is cut
    toward zero, text is read as by [int], a missing value is refused. *)
Definition format_func (value tick_number : cell) : outcome Z :=
  match value with
  | Num q => Returns (Z.quot (Qnum q) (Zpos (Qden q)))
  | Str s => py_int s
  | NaN => Raises ValueError
  end.

(** * Properties *)

(** ** Text *)

Lemma split_nonempty (sep : ascii) (s : string) : split sep s <> [].
Proof.
  destruct s as [|c s]; simpl; [discriminate|].
  destruct (Ascii.eqb c sep); [discriminate|].
  destruct (split sep s); discriminate.
Qed.

Lemma join_split (sep : ascii) (s : string) : join sep (split sep s) = s.
Proof.
  induction s as [|c s IH]; simpl; [reflexivity|].
  destruct (Ascii.eqb_spec c sep) as [->|Hne].
  - pose proof (split_nonempty sep s) as Hs.
    destruct (split sep s) as [|w ws]; [congruence|].
    simpl in *. now rewrite IH.
  - pose proof (split_nonempty sep s) as Hs.
    destruct (split sep s) as [|w ws]; [congruence|].
    destruct ws as [|w' ws]; simpl in *; now rewrite <- IH.
Qed.

Lemma split_parts_free (sep : ascii) (s : string) :
  Forall (fun p => contains sep p = false) (split sep s).
Proof.
  induction s as [|c s IH]; simpl.
  - constructor; [reflexivity|constructor].
  - destruct (Ascii.eqb_spec c sep) as [->|Hne].
    + constructor; [reflexivity|assumption].
    + destruct (split sep s) as [|w ws].
      * constructor; [|constructor]. simpl.
        destruct (Ascii.eqb_spec c sep); [contradiction|reflexivity].
      * inversion IH; subst. constructor; [|assumption]. simpl.
        destruct (Ascii.eqb_spec c sep); [contradiction|assumption].
Qed.

Lemma split_free (sep : ascii) (s : string) :
  contains sep s = false -> split sep s = [s].
Proof.
  induction s as [|c s IH]; simpl; [reflexivity|].
  destruct (Ascii.eqb c sep); simpl; [discriminate|].
  intros H. now rewrite IH.
Qed.

Lemma split_app (sep : ascii) (a b : string) :
  contains sep a = false ->
  split sep (a ++ String sep b)%string = a :: split sep b.
Proof.
  induction a as [|c a IH]; simpl.
  - intros _. now rewrite Ascii.eqb_refl.
  - destruct (Ascii.eqb c sep); simpl; [discriminate|].
    intros H. now rewrite IH.
Qed.

Lemma append_empty_r (s : string) : (s ++ EmptyString)%string = s.
Proof. induction s as [|c s IH]; simpl; congruence. Qed.

Lemma append_assoc (s t u : string) :
  ((s ++ t) ++ u)%string = (s ++ (t ++ u))%string.
Proof. induction s as [|c s IH]; simpl; congruence. Qed.

Lemma string_rev_app (s t : string) :
  string_rev (s ++ t)%string = (string_rev t ++ string_rev s)%string.
Proof.
  induction s as [|c s IH]; simpl.
  - now rewrite append_empty_r.
  - now rewrite IH, append_assoc.
Qed.

Lemma string_rev_involutive (s : string) : string_rev (string_rev s) = s.
Proof.
  induction s as [|c s IH]; simpl; [reflexivity|].
  rewrite string_rev_app. simpl. now rewrite IH.
Qed.

Lemma digit_not_space (c : ascii) (d : Z) :
  digit_value c = Some d -> is_space c = false.
Proof.
  unfold digit_value, is_space.
  destruct ((48 <=? nat_of_ascii c)%nat && (nat_of_ascii c <=? 57)%nat) eqn:E;
    [|discriminate].
  intros _. apply andb_true_iff in E as [E1 E2].
  apply Nat.leb_le in E1, E2.
  repeat rewrite orb_false_iff. repeat split.
  - apply andb_false_iff. right. apply Nat.leb_gt. lia.
  - apply Nat.eqb_neq. lia.
  - apply Nat.eqb_neq. lia.
  - apply Nat.eqb_neq. lia.
Qed.

Lemma all_digits_rev (s : string) :
  all_digits s = true -> all_digits (string_rev s) = true.
Proof.
  assert (Happ : forall s t, all_digits s = true -> all_digits t = true ->
                             all_digits (s ++ t)%string = true).
  { clear. induction s as [|c s IH]; simpl; intros t Hs Ht; [assumption|].
    destruct (digit_value c); [now apply IH|discriminate]. }
  induction s as [|c s IH]; simpl; [reflexivity|].
  destruct (digit_value c) eqn:E; [|discriminate].
  intros H. apply Happ; [now apply IH|]. simpl. now rewrite E.
Qed.

Lemma lstrip_digits (s : string) : all_digits s = true -> lstrip s = s.
Proof.
  destruct s as [|c s]; simpl; [reflexivity|].
  destruct (digit_value c) eqn:E; [|discriminate].
  intros _. now rewrite (digit_not_space c z E).
Qed.

Lemma strip_digits (s : string) : all_digits s = true -> strip s = s.
Proof.
  intros H. unfold strip, rstrip.
  rewrite (lstrip_digits s H).
  rewrite (lstrip_digits _ (all_digits_rev s H)).
  apply string_rev_involutive.
Qed.

Lemma digits_of_uint (u : Decimal.uint) (a : nat) :
  digits (Z.of_nat a) true (NilEmpty.string_of_uint u)
  = Some (Z.of_nat (Nat.of_uint_acc u a)).
Proof.
  revert a.
  induction u as [|u IH|u IH|u IH|u IH|u IH|u IH|u IH|u IH|u IH|u IH];
    intros a; [reflexivity|..];
    cbn [NilEmpty.string_of_uint digits Nat.of_uint_acc];
    match goal with
    | |- context [digit_value ?c] =>
        change (digit_value c) with (Some (Z.of_nat (nat_of_ascii c - 48)))
    end;
    cbv beta iota;
    match goal with
    | |- digits ?x true _ = Some (Z.of_nat (Nat.of_uint_acc _ ?y)) =>
        replace x with (Z.of_nat y);
        [apply IH
        | rewrite Nat.tail_mul_spec;
          match goal with
          | |- context [(nat_of_ascii ?c - 48)%nat] =>
              let v := eval vm_compute in (nat_of_ascii c - 48)%nat in
              change (nat_of_ascii c - 48)%nat with v
          end; lia]
    end.
Qed.

Lemma all_digits_of_uint (u : Decimal.uint) :
  all_digits (NilEmpty.string_of_uint u) = true.
Proof. induction u; simpl; auto. Qed.

Lemma no_dash_of_uint (u : Decimal.uint) :
  contains "-" (NilEmpty.string_of_uint u) = false.
Proof. induction u; simpl; auto. Qed.

Lemma to_uint_nonnil (n : nat) : Nat.to_uint n <> Decimal.Nil.
Proof.
  rewrite <- (DecimalNat.Unsigned.of_to n) at 1.
  rewrite DecimalNat.Unsigned.to_of.
  apply DecimalFacts.unorm_nonnil.
Qed.

Lemma py_int_decimal (n : nat) : py_int (decimal n) = Returns (Z.of_nat n).
Proof.
  unfold py_int, decimal.
  rewrite (strip_digits _ (all_digits_of_uint _)).
  pose proof (DecimalNat.Unsigned.of_to n) as Hn.
  pose proof (to_uint_nonnil n) as Hnil.
  unfold Nat.of_uint in Hn.
  destruct (Nat.to_uint n) as [|u|u|u|u|u|u|u|u|u|u]; [congruence|..];
    cbn [NilEmpty.string_of_uint];
    match goal with
    | |- context [digits 0%Z false (String ?c ?s)] =>
        change (digits 0%Z false (String c s))
          with (digits (Z.of_nat (Z.to_nat (10 * 0 + Z.of_nat (nat_of_ascii c - 48)))) true s)
    end;
    cbv iota; rewrite digits_of_uint; rewrite <- Hn; reflexivity.
Qed.

(** ** Height decoding *)

Lemma mapM_length {A B : Type} (f : A -> outcome B) (l : list A) (bs : list B) :
  mapM f l = Returns bs -> length bs = length l.
Proof.
  revert bs. induction l as [|a l IH]; simpl; intros bs H.
  - now inversion H.
  - destruct (f a); simpl in H; [|discriminate].
    destruct (mapM f l) as [bs'|]; simpl in H; [|discriminate].
    inversion H; subst. simpl. now rewrite (IH bs').
Qed.

Lemma convert_height_inches_returns (height : cell) :
  convert_height_inches height = Returns None \/
  exists total_inches, convert_height_inches height = Returns (Some total_inches).
Proof.
  unfold convert_height_inches, try_except.
  destruct (convert_height_inches_body height) as [[v|]|e] eqn:E; eauto.
Qed.

Lemma convert_height_inches_shape (text : string) (feet inches : Z) :
  decoder_reads text feet inches ->
  convert_height_inches (Str text) = Returns (Some (feet * 12 + inches)%Z).
Proof.
  intros (a & b & -> & Ha & Hb & Hfa & Hfb).
  unfold convert_height_inches, convert_height_inches_body, py_split.
  cbn [bind]. rewrite (split_app "-" a b Ha), (split_free "-" b Hb).
  cbn [mapM bind]. rewrite Hfa, Hfb. reflexivity.
Qed.

Lemma convert_height_inches_some (height : cell) (total_inches : Z) :
  convert_height_inches height = Returns (Some total_inches) ->
  exists text feet inches,
    height = Str text /\ decoder_reads text feet inches /\
    total_inches = (feet * 12 + inches)%Z.
Proof.
  unfold convert_height_inches, convert_height_inches_body, py_split.
  destruct height as [|text|q]; cbn [bind try_except]; try discriminate.
  pose proof (join_split "-" text) as Hjoin.
  pose proof (split_parts_free "-" text) as Hfree.
  destruct (mapM py_int (split "-" text)) as [values|e] eqn:E;
    cbn [bind try_except]; [|discriminate].
  pose proof (mapM_length _ _ _ E) as Hlen.
  destruct values as [|feet [|inches [|x values]]]; cbn [try_except];
    try discriminate.
  intros H. inversion H; subst total_inches. clear H.
  destruct (split "-" text) as [|a [|b [|c parts]]]; try discriminate.
  cbn [mapM bind] in E.
  destruct (py_int a) as [fa|] eqn:Ea; cbn [bind] in E; [|discriminate].
  destruct (py_int b) as [fb|] eqn:Eb; cbn [bind] in E; [|discriminate].
  inversion E; subst. inversion Hfree as [|? ? Hfa Hrest]; subst.
  inversion Hrest as [|? ? Hfb _]; subst.
  simpl in *.
  do 3 eexists. split; [reflexivity|]. split; [|reflexivity].
  exists a, b. auto.
Qed.

(** ** Normalizer *)

Lemma replace_cell_other (to_replace value : string) (c : cell) :
  c <> Str to_replace -> replace_cell to_replace value c = c.
Proof.
  destruct c as [|s|q]; simpl; try reflexivity.
  destruct (String.eqb_spec s to_replace) as [->|Hne]; [congruence|reflexivity].
Qed.

Lemma replace_cell_idempotent (to_replace value : string) (c : cell) :
  replace_cell to_replace value (replace_cell to_replace value c)
  = replace_cell to_replace value c.
Proof.
  destruct c as [|s|q]; simpl; try reflexivity.
  destruct (String.eqb_spec s to_replace) as [->|Hne]; simpl.
  - now destruct (String.eqb value to_replace).
  - destruct (String.eqb_spec s to_replace); [contradiction|reflexivity].
Qed.

Lemma replace_cell_number (to_replace value : string) (c : cell) :
  (forall s, c <> Str s) -> replace_cell to_replace value c = c.
Proof. destruct c as [|s|q]; simpl; try reflexivity. intros H. now elim (H s). Qed.

(** ** Linker *)

Lemma mask_select_map {A : Type} (p : A -> bool) (rows : list A) :
  mask_select rows (map p rows) = filter p rows.
Proof.
  induction rows as [|r rows IH]; simpl; [reflexivity|].
  destruct (p r); now rewrite IH.
Qed.

Lemma loc_set_map {A : Type} (set : A -> A) (p : A -> bool) (rows : list A) :
  loc_set set rows (map p rows) = map (fun r => if p r then set r else r) rows.
Proof.
  induction rows as [|r rows IH]; simpl; [reflexivity|]. now rewrite IH.
Qed.

Lemma map_unmatched {A : Type} (set : A -> A) (p : A -> bool) (rows : list A) :
  filter p rows = [] -> map (fun r => if p r then set r else r) rows = rows.
Proof.
  induction rows as [|r rows IH]; simpl; [reflexivity|].
  destruct (p r); [discriminate|]. intros H. now rewrite IH.
Qed.

Lemma reconcile_row_map (combine_df : list Combine.t) (row : Draft.t) :
  reconcile_row combine_df row = map (fun c => relink c row) combine_df.
Proof.
  unfold reconcile_row, matching_row_index.
  change (fun c => elem_eq (Combine.Player c) (Draft.Name row)
                   && elem_eq (Combine.draft_year c) (Draft.Year row))
    with (fun c => linked c row).
  rewrite mask_select_map, loc_set_map.
  unfold relink.
  destruct (filter (fun c => linked c row) combine_df) eqn:E; simpl.
  - symmetry. now apply map_unmatched.
  - reflexivity.
Qed.

Lemma reconcile_schools_map (df : list Draft.t) (combine_df : list Combine.t) :
  reconcile_schools df combine_df = map (fun c => fold_left relink df c) combine_df.
Proof.
  unfold reconcile_schools. revert combine_df.
  induction df as [|d df IH]; intros combine_df; simpl.
  - now rewrite map_id.
  - rewrite IH, reconcile_row_map, map_map. reflexivity.
Qed.

Lemma linked_set_School (v : cell) (c : Combine.t) (d : Draft.t) :
  linked (Combine.set_School v c) d = linked c d.
Proof. reflexivity. Qed.

Lemma relink_keeps (c : Combine.t) (d : Draft.t) :
  exists v, relink c d = Combine.set_School v c.
Proof.
  unfold relink. destruct (linked c d); [eauto|].
  exists (Combine.School c). now destruct c.
Qed.

Lemma fold_relink_keeps (df : list Draft.t) (c : Combine.t) :
  exists v, fold_left relink df c = Combine.set_School v c.
Proof.
  revert c. induction df as [|d df IH]; intros c; simpl.
  - exists (Combine.School c). now destruct c.
  - destruct (relink_keeps c d) as [v ->].
    destruct (IH (Combine.set_School v c)) as [w ->]. now exists w.
Qed.

Lemma linked_fold_relink (df : list Draft.t) (c : Combine.t) (d : Draft.t) :
  linked (fold_left relink df c) d = linked c d.
Proof. destruct (fold_relink_keeps df c) as [v ->]. reflexivity. Qed.

(** The closed form of the loop: a combine row takes the school of the
    last draft row it is linked to. *)
Lemma fold_relink_last (df : list Draft.t) (c : Combine.t) :
  fold_left relink df c =
  match find (linked c) (rev df) with
  | Some d => Combine.set_School (Draft.School d) c
  | None => c
  end.
Proof.
  induction df as [|d df IH] using rev_ind; [reflexivity|].
  rewrite fold_left_app, rev_app_distr. simpl.
  unfold relink at 1. rewrite linked_fold_relink.
  destruct (linked c d); [|exact IH].
  destruct (fold_relink_keeps df c) as [v ->]. reflexivity.
Qed.

Lemma linked_names (c : Combine.t) (d d' : Draft.t) :
  linked c d = true -> linked c d' = true ->
  elem_eq (Draft.Name d') (Draft.Name d) = true /\
  elem_eq (Draft.Year d') (Draft.Year d) = true.
Proof.
  unfold linked, elem_eq, cell_eqb. intros H H'.
  apply andb_true_iff in H as [H1 H2]. apply andb_true_iff in H' as [H1' H2'].
  split.
  - destruct (Combine.Player c), (Draft.Name d), (Draft.Name d');
      try discriminate;
      repeat match goal with
             | H : (if cell_eq_dec ?a ?b then _ else _) = true |- _ =>
                 destruct (cell_eq_dec a b); [|discriminate]
             end;
      match goal with |- (if cell_eq_dec ?a ?b then _ else _) = true =>
        destruct (cell_eq_dec a b); [reflexivity|congruence] end.
  - destruct (Combine.draft_year c), (Draft.Year d), (Draft.Year d');
      try discriminate;
      repeat match goal with
             | H : (if cell_eq_dec ?a ?b then _ else _) = true |- _ =>
                 destruct (cell_eq_dec a b); [|discriminate]
             end;
      match goal with |- (if cell_eq_dec ?a ?b then _ else _) = true =>
        destruct (cell_eq_dec a b); [reflexivity|congruence] end.
Qed.

(** A combine row linked to [d] ends with the school of [d] when every
    later draft row it is linked to records that school. *)
Lemma fold_relink_school (df1 df2 : list Draft.t) (d : Draft.t) (c : Combine.t) :
  linked c d = true ->
  (forall d', In d' df2 -> linked c d' = true ->
              Draft.School d' = Draft.School d) ->
  fold_left relink (df1 ++ d :: df2) c = Combine.set_School (Draft.School d) c.
Proof.
  intros Hd Hlater. rewrite fold_left_app. simpl.
  unfold relink at 2. rewrite linked_fold_relink, Hd.
  destruct (fold_relink_keeps df1 c) as [v ->].
  change (Combine.set_School (Draft.School d) (Combine.set_School v c))
    with (Combine.set_School (Draft.School d) c).
  induction df2 as [|d' df2 IH]; simpl; [reflexivity|].
  unfold relink at 2. rewrite linked_set_School.
  destruct (linked c d') eqn:E.
  - rewrite (Hlater d' (or_introl eq_refl) E).
    change (Combine.set_School (Draft.School d)
              (Combine.set_School (Draft.School d) c))
      with (Combine.set_School (Draft.School d) c).
    apply IH. intros d'' Hin. apply Hlater. now right.
  - apply IH. intros d'' Hin. apply Hlater. now right.
Qed.

(** ** Merger *)

Lemma key_eqb_eq (a b : key) : key_eqb a b = true <-> a = b.
Proof. unfold key_eqb. destruct (key_eq_dec a b); split; congruence. Qed.

Lemma matches_nil (d : Draft.t) (combine_df : list Combine.t) :
  (forall c, In c combine_df -> Combine.key c <> Draft.key d) ->
  matches d combine_df = [].
Proof.
  unfold matches. induction combine_df as [|c cs IH]; simpl; intros H;
    [reflexivity|].
  destruct (key_eqb (Draft.key d) (Combine.key c)) eqn:E.
  - apply key_eqb_eq in E. elim (H c (or_introl eq_refl)). now symmetry.
  - apply IH. intros c' Hin. apply H. now right.
Qed.

Lemma merge_row_unmatched (d : Draft.t) (combine_df : list Combine.t) :
  (forall c, In c combine_df -> Combine.key c <> Draft.key d) ->
  merge_row combine_df d = [unmatched_row d].
Proof. intros H. unfold merge_row. now rewrite (matches_nil d combine_df H). Qed.

Lemma in_matches (d : Draft.t) (combine_df : list Combine.t) (c : Combine.t) :
  In c (matches d combine_df) <-> In c combine_df /\ Combine.key c = Draft.key d.
Proof.
  unfold matches. rewrite filter_In, key_eqb_eq. intuition congruence.
Qed.

Lemma in_merge_row (d : Draft.t) (combine_df : list Combine.t) (m : Merged.t) :
  In m (merge_row combine_df d) <->
  (exists c, In c combine_df /\ Combine.key c = Draft.key d /\ m = join_row d c)
  \/ ((forall c, In c combine_df -> Combine.key c <> Draft.key d)
      /\ m = unmatched_row d).
Proof.
  unfold merge_row. destruct (matches d combine_df) as [|c0 cs] eqn:E.
  - split.
    + intros [<-|[]]. right. split; [|reflexivity].
      intros c Hin Hk.
      assert (Hc : In c (matches d combine_df)) by now apply in_matches.
      rewrite E in Hc. destruct Hc.
    + intros [(c & Hin & Hk & _)|[_ ->]]; [|now left].
      assert (Hc : In c (matches d combine_df)) by now apply in_matches.
      rewrite E in Hc. destruct Hc.
  - rewrite <- E. split.
    + intros Hm. apply in_map_iff in Hm as (c & <- & Hc).
      apply in_matches in Hc as [Hin Hk]. left. now exists c.
    + intros [(c & Hin & Hk & ->)|[Hno _]].
      * apply in_map. now apply in_matches.
      * assert (Hc : In c0 (matches d combine_df)) by (rewrite E; now left).
        apply in_matches in Hc as [Hin Hk]. now elim (Hno c0).
Qed.

Lemma merge_row_nonempty (d : Draft.t) (combine_df : list Combine.t) :
  merge_row combine_df d <> [].
Proof.
  unfold merge_row. destruct (matches d combine_df); simpl; discriminate.
Qed.

Lemma merge_row_key (d : Draft.t) (combine_df : list Combine.t) (m : Merged.t) :
  In m (merge_row combine_df d) -> Output.key (drop_row m) = Draft.key d.
Proof.
  intros H. apply in_merge_row in H as [(c & _ & _ & ->)|[_ ->]]; reflexivity.
Qed.

Lemma merged_keys (df : list Draft.t) (combine_df : list Combine.t) (k : key) :
  In k (map Output.key (drop (merge df combine_df))) <-> In k (map Draft.key df).
Proof.
  unfold drop, merge. rewrite map_map. rewrite !in_map_iff. split.
  - intros (m & <- & Hm). apply in_flat_map in Hm as (d & Hd & Hm).
    exists d. split; [|assumption]. symmetry. now apply (merge_row_key d combine_df).
  - intros (d & <- & Hd).
    pose proof (merge_row_nonempty d combine_df) as Hne.
    destruct (merge_row combine_df d) as [|m ms] eqn:E; [congruence|].
    exists m. split.
    + apply (merge_row_key d combine_df). rewrite E. now left.
    + apply in_flat_map. exists d. split; [assumption|]. rewrite E. now left.
Qed.

Lemma dedup_from_cons (seen : list key) (r : Output.t) (rows : list Output.t) :
  dedup_from seen (r :: rows) =
  if in_dec key_eq_dec (Output.key r) seen
  then dedup_from seen rows
  else r :: dedup_from (Output.key r :: seen) rows.
Proof.
  unfold dedup_from. simpl.
  destruct (in_dec key_eq_dec (Output.key r) seen); reflexivity.
Qed.

Lemma dedup_from_first (seen : list key) (rows : list Output.t) (k : key) :
  filter (fun r => key_eqb (Output.key r) k) (dedup_from seen rows) =
  if in_dec key_eq_dec k seen then []
  else match find (fun r => key_eqb (Output.key r) k) rows with
       | Some r => [r]
       | None => []
       end.
Proof.
  revert seen. induction rows as [|r rows IH]; intros seen.
  - simpl. now destruct (in_dec key_eq_dec k seen).
  - rewrite dedup_from_cons. cbn [find].
    destruct (in_dec key_eq_dec (Output.key r) seen) as [Hr|Hr].
    + rewrite IH. destruct (in_dec key_eq_dec k seen) as [Hk|Hk]; [reflexivity|].
      destruct (key_eqb (Output.key r) k) eqn:E; [|reflexivity].
      apply key_eqb_eq in E. congruence.
    + cbn [filter]. rewrite IH.
      destruct (key_eqb (Output.key r) k) eqn:E.
      * apply key_eqb_eq in E. subst k.
        destruct (in_dec key_eq_dec (Output.key r) (Output.key r :: seen))
          as [_|Hn]; [|elim Hn; now left].
        destruct (in_dec key_eq_dec (Output.key r) seen); [contradiction|reflexivity].
      * assert (Hne : Output.key r <> k).
        { intros Heq. apply key_eqb_eq in Heq. congruence. }
        destruct (in_dec key_eq_dec k (Output.key r :: seen)) as [[H|H]|H];
          destruct (in_dec key_eq_dec k seen) as [H'|H'];
          try reflexivity; try contradiction.
        elim H. now right.
Qed.

Lemma dedup_from_keys (seen : list key) (rows : list Output.t) (k : key) :
  In k (map Output.key (dedup_from seen rows)) <->
  In k (map Output.key rows) /\ ~ In k seen.
Proof.
  revert seen. induction rows as [|r rows IH]; intros seen.
  - simpl. tauto.
  - rewrite dedup_from_cons.
    destruct (in_dec key_eq_dec (Output.key r) seen) as [Hr|Hr].
    + rewrite IH. simpl. split; [tauto|].
      intros [[<-|H] Hn]; [contradiction|tauto].
    + simpl. rewrite IH. simpl. split.
      * intros [<-|[H Hn]]; [tauto|]. tauto.
      * intros [[<-|H] Hn]; [tauto|].
        destruct (key_eq_dec (Output.key r) k); [tauto|]. right. tauto.
Qed.

Lemma dedup_from_NoDup (seen : list key) (rows : list Output.t) :
  NoDup (map Output.key (dedup_from seen rows)).
Proof.
  revert seen. induction rows as [|r rows IH]; intros seen.
  - constructor.
  - rewrite dedup_from_cons.
    destruct (in_dec key_eq_dec (Output.key r) seen) as [Hr|Hr]; [apply IH|].
    simpl. constructor; [|apply IH].
    rewrite dedup_from_keys. simpl. tauto.
Qed.

Lemma dedup_from_incl (seen : list key) (rows : list Output.t) (r : Output.t) :
  In r (dedup_from seen rows) -> In r rows.
Proof.
  revert seen. induction rows as [|r0 rows IH]; intros seen.
  - simpl. tauto.
  - rewrite dedup_from_cons.
    destruct (in_dec key_eq_dec (Output.key r0) seen).
    + intros H. right. eapply IH, H.
    + intros [<-|H]; [now left|]. right. eapply IH, H.
Qed.

Lemma Merger_keys (df : list Draft.t) (combine_df : list Combine.t) (k : key) :
  In k (map Output.key (Merger df combine_df)) <-> In k (map Draft.key df).
Proof.
  unfold Merger, drop_duplicates, duplicated.
  change (mask_select ?rows (map negb (duplicated_from [] ?rows)))
    with (dedup_from [] rows).
  rewrite dedup_from_keys, merged_keys. simpl. tauto.
Qed.

Lemma Merger_NoDup (df : list Draft.t) (combine_df : list Combine.t) :
  NoDup (map Output.key (Merger df combine_df)).
Proof. apply (dedup_from_NoDup []). Qed.

(** C1. Join completeness and uniqueness of the output keys: after the
    left join, the column pruning and [drop_duplicates], every key
    (name, school, year) of the draft table occurs on exactly one output
    row, no other key occurs, and the number of output rows is the
    number of distinct keys of the draft table. *)
Theorem Merger_join_completeness (df : list Draft.t) (combine_df : list Combine.t) :
  (forall d, In d df ->
     count_occ key_eq_dec (map Output.key (Merger df combine_df)) (Draft.key d)
     = 1%nat) /\
  (forall k, ~ In k (map Draft.key df) ->
     count_occ key_eq_dec (map Output.key (Merger df combine_df)) k = 0%nat) /\
  length (Merger df combine_df) = length (nodup key_eq_dec (map Draft.key df)).
Proof.
  pose proof (Merger_NoDup df combine_df) as Hnd.
  pose proof (Merger_keys df combine_df) as Hk.
  repeat split.
  - intros d Hd.
    assert (Hin : In (Draft.key d) (map Output.key (Merger df combine_df))).
    { apply Hk. now apply in_map. }
    apply (count_occ_In key_eq_dec) in Hin.
    pose proof (proj1 (NoDup_count_occ key_eq_dec _) Hnd (Draft.key d)). lia.
  - intros k Hn. apply count_occ_not_In. intros Hin. apply Hn. now apply Hk.
  - rewrite <- (length_map Output.key). apply Nat.le_antisymm.
    + apply NoDup_incl_length; [assumption|].
      intros k Hin. apply nodup_In. now apply Hk.
    + apply NoDup_incl_length; [apply NoDup_nodup|].
      intros k Hin. apply nodup_In in Hin. now apply Hk.
Qed.

Lemma mask_select_subsequence {A : Type} (rows : list A) (mask : list bool) :
  subsequence (mask_select rows mask) rows.
Proof.
  revert mask. induction rows as [|r rows IH]; intros mask.
  - destruct mask; constructor.
  - destruct mask as [|b mask]; simpl.
    + constructor. specialize (IH []). now destruct rows.
    + destruct b; constructor; apply IH.
Qed.

(** C2. Deduplication is first-wins: of the rows that share a key,
    [drop_duplicates] keeps the first in frame order and no other; a key
    carried by one row keeps that row; the rows kept stay in their
    original order.  The result is a function of the table alone: of
    two combine rows with one key and different measurements the Merger
    keeps those of the first. *)
Theorem drop_duplicates_first_wins (rows : list Output.t) :
  (forall k : key,
     filter (fun r => key_eqb (Output.key r) k) (drop_duplicates rows) =
     match find (fun r => key_eqb (Output.key r) k) rows with
     | Some first => [first]
     | None => []
     end) /\
  subsequence (drop_duplicates rows) rows /\
  map Output.measurements
      (Merger [jane_draft]
              (reconcile_schools [jane_draft] [jane_combine; jane_combine_again]))
  = [[Combine.Ht jane_combine; Combine.Wt jane_combine;
      Combine.Forty_yd jane_combine; Combine.Vertical jane_combine;
      Combine.Bench jane_combine; Combine.Broad_Jump jane_combine;
      Combine.Cone_3 jane_combine; Combine.Shuttle jane_combine]].
Proof.
  split; [|split].
  - intros k. apply (dedup_from_first [] rows k).
  - apply mask_select_subsequence.
  - reflexivity.
Qed.

(** The pipeline on a draft table of two rows and a combine table whose
    one row matches the first: two output rows, the first with its
    measurements, the height decoded, the second with none. *)
Example pipeline_end_to_end :
  match pipeline [jane_draft; john_draft] [jane_combine] with
  | Returns out =>
      map Output.draft out
      = [Draft.mk (Int 2015) (Int 1) (Int 5) (Str "Jane Doe") (Str "QB")
                  (Str "Boston College") (Str "COMMANDERS");
         john_draft] /\
      map Output.measurements out
      = [[Int 74; Int 210; NaN; Int 31; NaN; Int 110; NaN; NaN];
         [NaN; NaN; NaN; NaN; NaN; NaN; NaN; NaN]]
  | Raises _ => False
  end.
Proof. vm_compute. split; reflexivity. Qed.

Lemma merge_app (df1 df2 : list Draft.t) (combine_df : list Combine.t) :
  merge (df1 ++ df2) combine_df = merge df1 combine_df ++ merge df2 combine_df.
Proof. apply flat_map_app. Qed.

Lemma in_merge (df : list Draft.t) (combine_df : list Combine.t) (m : Merged.t) :
  In m (merge df combine_df) <->
  exists d, In d df /\
    ((exists c, In c combine_df /\ Combine.key c = Draft.key d /\ m = join_row d c)
     \/ ((forall c, In c combine_df -> Combine.key c <> Draft.key d)
         /\ m = unmatched_row d)).
Proof.
  unfold merge. rewrite in_flat_map. split.
  - intros (d & Hd & Hm). exists d. split; [assumption|]. now apply in_merge_row.
  - intros (d & Hd & Hm). exists d. split; [assumption|]. now apply in_merge_row.
Qed.

(** C3. Left-join correctness: [merge] is the left outer join on
    (Name = Player, School = School, Year = draft_year), and a draft row
    without a matching combine row yields exactly one row, at its place
    in the output, whose measurements are all missing and whose draft
    columns are those of the draft row. *)
Theorem merge_left_join (df : list Draft.t) (combine_df : list Combine.t) :
  (forall m, In m (merge df combine_df) <->
     exists d, In d df /\
       ((exists c, In c combine_df /\ Combine.key c = Draft.key d
                   /\ m = join_row d c)
        \/ ((forall c, In c combine_df -> Combine.key c <> Draft.key d)
            /\ m = unmatched_row d))) /\
  (forall df1 d df2,
     df = df1 ++ d :: df2 ->
     (forall c, In c combine_df -> Combine.key c <> Draft.key d) ->
     merge df combine_df
     = merge df1 combine_df ++ unmatched_row d :: merge df2 combine_df
     /\ Forall (fun v => v = NaN) (Merged.measurements (unmatched_row d))
     /\ Merged.draft (unmatched_row d) = d).
Proof.
  split; [apply in_merge|].
  intros df1 d df2 -> Hno. repeat split.
  - rewrite merge_app. f_equal. unfold merge at 1. simpl.
    now rewrite (merge_row_unmatched d combine_df Hno).
  - simpl. repeat constructor.
  - now destruct d.
Qed.

(** ** Linker *)

Lemma in_reconcile_schools (df : list Draft.t) (combine_df : list Combine.t)
    (c' : Combine.t) :
  In c' (reconcile_schools df combine_df) ->
  exists c, In c combine_df /\ c' = fold_left relink df c.
Proof.
  rewrite reconcile_schools_map, in_map_iff.
  intros (c & <- & Hc). now exists c.
Qed.

(** The claim of C4 fails when two draft rows of one name and year
    record different schools: the combine row cannot agree with both. *)
Lemma schools_reconciled_fails :
  ~ schools_reconciled [jane_draft; jane_draft_other] [jane_combine].
Proof.
  intros H.
  specialize (H jane_draft
                (Combine.set_School (Str "Boston University") jane_combine)).
  assert (E : Combine.School
                (Combine.set_School (Str "Boston University") jane_combine)
              = Draft.School jane_draft).
  { apply H; [now left| now left | reflexivity]. }
  discriminate E.
Qed.

(** C4, amended. School reconciliation: after the Linker pass, for every
    draft row [d] such that every later draft row of the same name and
    year records the same school, every combine row whose player name
    and draft year equal those of [d] has the school of [d]; the Jane Doe
    row ends with school Boston College. *)
Theorem reconcile_schools_overwrites
    (df1 df2 : list Draft.t) (d : Draft.t) (combine_df : list Combine.t) :
  (forall d', In d' df2 -> same_player d' d = true ->
              Draft.School d' = Draft.School d) ->
  (forall c, In c (reconcile_schools (df1 ++ d :: df2) combine_df) ->
             linked c d = true -> Combine.School c = Draft.School d) /\
  map Combine.School (reconcile_schools [jane_draft] [jane_combine])
  = [Str "Boston College"].
Proof.
  intros Hlater. split; [|reflexivity].
  intros c' Hin Hl.
  apply in_reconcile_schools in Hin as (c & Hc & ->).
  rewrite linked_fold_relink in Hl.
  rewrite (fold_relink_school df1 df2 d c Hl); [reflexivity|].
  intros d' Hd' Hl'. apply Hlater; [assumption|].
  unfold same_player. destruct (linked_names c d d' Hl Hl') as [-> ->].
  reflexivity.
Qed.

Lemma reconcile_schools_overwrites_witness :
  (forall d', In d' [john_draft] -> same_player d' jane_draft = true ->
              Draft.School d' = Draft.School jane_draft) /\
  Combine.School
    (hd jane_combine
        (reconcile_schools ([jane_draft_other] ++ jane_draft :: [john_draft])
                           [jane_combine; jane_combine_again]))
  = Str "Boston College".
Proof.
  assert (H : forall d', In d' [john_draft] -> same_player d' jane_draft = true ->
                         Draft.School d' = Draft.School jane_draft).
  { intros d' [<-|[]] H. vm_compute in H. discriminate H. }
  split; [exact H|].
  apply (proj1 (reconcile_schools_overwrites
                  [jane_draft_other] [john_draft] jane_draft
                  [jane_combine; jane_combine_again] H)).
  - left. reflexivity.
  - reflexivity.
Defined.

(** C9. The Linker overwrite is last-wins: the loop gives every combine
    row the school of the last draft row of its name and year, so when
    several draft rows share a (name, year) and [d] is the last of them,
    every combine row of that name and year ends with the school of
    [d]. *)
Theorem reconcile_schools_last_wins
    (df : list Draft.t) (combine_df : list Combine.t) :
  reconcile_schools df combine_df =
    map (fun c => match find (linked c) (rev df) with
                  | Some d => Combine.set_School (Draft.School d) c
                  | None => c
                  end) combine_df /\
  (forall df1 d df2 c,
     df = df1 ++ d :: df2 ->
     (forall d', In d' df2 -> same_player d' d = false) ->
     In c (reconcile_schools df combine_df) ->
     linked c d = true ->
     Combine.School c = Draft.School d).
Proof.
  split.
  - rewrite reconcile_schools_map. apply map_ext. intros c.
    apply fold_relink_last.
  - intros df1 d df2 c' -> Hlast Hin Hl.
    apply in_reconcile_schools in Hin as (c & Hc & ->).
    rewrite linked_fold_relink in Hl.
    rewrite (fold_relink_school df1 df2 d c Hl); [reflexivity|].
    intros d' Hd' Hl'. exfalso.
    specialize (Hlast d' Hd'). unfold same_player in Hlast.
    destruct (linked_names c d d' Hl Hl') as [E1 E2].
    rewrite E1, E2 in Hlast. discriminate Hlast.
Qed.

Lemma reconcile_schools_last_wins_witness :
  (forall d', In d' [john_draft] -> same_player d' jane_draft_other = false) /\
  Combine.School
    (hd jane_combine
        (reconcile_schools [jane_draft; jane_draft_other; john_draft]
                           [jane_combine; jane_combine_again]))
  = Str "Boston University".
Proof.
  assert (H : forall d', In d' [john_draft] ->
                         same_player d' jane_draft_other = false).
  { intros d' [<-|[]]. reflexivity. }
  split; [exact H|].
  apply (proj2 (reconcile_schools_last_wins
                  [jane_draft; jane_draft_other; john_draft]
                  [jane_combine; jane_combine_again])
               [jane_draft] jane_draft_other [john_draft] _ eq_refl H).
  - left. reflexivity.
  - reflexivity.
Defined.

(** ** Witnesses for the Merger *)

Lemma Merger_join_completeness_witness :
  In jane_draft_other [jane_draft; john_draft; jane_draft_other; jane_draft] /\
  count_occ key_eq_dec
    (map Output.key
       (Merger [jane_draft; john_draft; jane_draft_other; jane_draft]
               (reconcile_schools [jane_draft]
                                  [jane_combine; jane_combine_again])))
    (Draft.key jane_draft_other) = 1%nat.
Proof.
  assert (H : In jane_draft_other
                 [jane_draft; john_draft; jane_draft_other; jane_draft]).
  { right. right. left. reflexivity. }
  split; [exact H|].
  exact (proj1 (Merger_join_completeness _ _) jane_draft_other H).
Defined.

Lemma merge_left_join_witness :
  (forall c, In c [jane_combine; jane_combine_again] ->
             Combine.key c <> Draft.key john_draft) /\
  merge [jane_draft; john_draft; jane_draft_other]
        [jane_combine; jane_combine_again]
  = merge [jane_draft] [jane_combine; jane_combine_again]
    ++ unmatched_row john_draft
       :: merge [jane_draft_other] [jane_combine; jane_combine_again].
Proof.
  assert (H : forall c, In c [jane_combine; jane_combine_again] ->
                        Combine.key c <> Draft.key john_draft).
  { intros c [<-|[<-|[]]]; discriminate. }
  split; [exact H|].
  exact (proj1 (proj2 (merge_left_join
                         [jane_draft; john_draft; jane_draft_other]
                         [jane_combine; jane_combine_again])
                      [jane_draft] john_draft [jane_draft_other] eq_refl H)).
Defined.

(** ** Height decoding *)

Lemma contains_lstrip (c : ascii) (s : string) :
  contains c s = false -> contains c (lstrip s) = false.
Proof.
  induction s as [|a s IH]; simpl; [reflexivity|].
  intros H. apply orb_false_iff in H as [H1 H2].
  destruct (is_space a); [now apply IH|]. simpl. now rewrite H1, H2.
Qed.

Lemma contains_app (c : ascii) (s t : string) :
  contains c (s ++ t)%string = contains c s || contains c t.
Proof.
  induction s as [|a s IH]; simpl; [reflexivity|].
  now rewrite IH, orb_assoc.
Qed.

Lemma contains_rev (c : ascii) (s : string) :
  contains c (string_rev s) = contains c s.
Proof.
  induction s as [|a s IH]; simpl; [reflexivity|].
  rewrite contains_app, IH. simpl. rewrite orb_false_r. apply orb_comm.
Qed.

Lemma contains_strip (c : ascii) (s : string) :
  contains c s = false -> contains c (strip s) = false.
Proof.
  intros H. unfold strip, rstrip. rewrite contains_rev.
  apply contains_lstrip. rewrite contains_rev. now apply contains_lstrip.
Qed.

(** ** The forms of a height text *)

Lemma is_space_white (c : ascii) : is_space c = true <-> white_space c.
Proof.
  unfold is_space, white_space. cbv zeta. simpl In.
  rewrite !orb_true_iff, andb_true_iff, Nat.leb_le, Nat.leb_le, !Nat.eqb_eq.
  lia.
Qed.

Lemma blank_app (s t : string) : blank (s ++ t)%string <-> blank s /\ blank t.
Proof. induction s as [|c s IH]; simpl; [tauto|]. rewrite IH. tauto. Qed.

Lemma blank_rev (s : string) : blank s -> blank (string_rev s).
Proof.
  induction s as [|c s IH]; simpl; [tauto|].
  intros [Hc Hs]. apply blank_app. simpl. tauto.
Qed.

Lemma lstrip_blank (lead s : string) :
  blank lead -> lstrip (lead ++ s)%string = lstrip s.
Proof.
  induction lead as [|c lead IH]; simpl; [reflexivity|].
  intros [Hc Hl]. apply is_space_white in Hc. rewrite Hc. now apply IH.
Qed.

Lemma lstrip_split (s : string) :
  exists lead, s = (lead ++ lstrip s)%string /\ blank lead.
Proof.
  induction s as [|c s (lead & E & Hl)]; simpl.
  - exists EmptyString. simpl. tauto.
  - destruct (is_space c) eqn:Ec.
    + exists (String c lead). simpl. rewrite <- E. split; [reflexivity|].
      split; [now apply is_space_white|assumption].
    + exists EmptyString. simpl. tauto.
Qed.

Lemma strip_split (s : string) :
  exists lead trail,
    s = (lead ++ strip s ++ trail)%string /\ blank lead /\ blank trail.
Proof.
  destruct (lstrip_split s) as (lead & E & Hl).
  destruct (lstrip_split (string_rev (lstrip s))) as (l2 & E2 & Hl2).
  exists lead, (string_rev l2). repeat split; [|assumption|now apply blank_rev].
  unfold strip, rstrip. rewrite E at 1. f_equal.
  rewrite <- string_rev_app, <- E2. symmetry. apply string_rev_involutive.
Qed.

Lemma strip_core (lead core trail : string) (c c' : ascii) (r r' : string) :
  blank lead -> blank trail ->
  core = String c r -> is_space c = false ->
  string_rev core = String c' r' -> is_space c' = false ->
  strip (lead ++ core ++ trail)%string = core.
Proof.
  intros Hl Ht Ec Hc Er Hr. unfold strip, rstrip.
  rewrite (lstrip_blank lead _ Hl).
  assert (E1 : lstrip (core ++ trail)%string = (core ++ trail)%string).
  { rewrite Ec. simpl. now rewrite Hc. }
  rewrite E1, string_rev_app, (lstrip_blank _ _ (blank_rev _ Ht)).
  rewrite Er. simpl. rewrite Hr. rewrite <- Er. apply string_rev_involutive.
Qed.

Lemma str_uapp (u v : Decimal.uint) :
  NilEmpty.string_of_uint (uapp u v)
  = (NilEmpty.string_of_uint u ++ NilEmpty.string_of_uint v)%string.
Proof. induction u; simpl; congruence. Qed.

Lemma of_uint_acc_uapp (u v : Decimal.uint) (a : nat) :
  Nat.of_uint_acc (uapp u v) a = Nat.of_uint_acc v (Nat.of_uint_acc u a).
Proof. revert a. induction u; intros a; simpl; auto. Qed.

Lemma str_nil (u : Decimal.uint) :
  NilEmpty.string_of_uint u = EmptyString <-> u = Decimal.Nil.
Proof. destruct u; simpl; split; congruence. Qed.

Lemma plain_integer_uint (g : string) (k : Z) :
  plain_integer g k <->
  exists u, u <> Decimal.Nil /\ g = NilEmpty.string_of_uint u /\
            k = Z.of_nat (Nat.of_uint u).
Proof.
  unfold plain_integer. split.
  - intros (Hne & u & Hu & ->). exists u.
    apply NilEmpty.sus in Hu. subst g. repeat split.
    intros ->. now apply Hne.
  - intros (u & Hne & -> & ->). split.
    + intros E. apply str_nil in E. contradiction.
    + exists u. split; [apply NilEmpty.usu|reflexivity].
Qed.

Lemma digits_str_app (v : Decimal.uint) (rest : string) (a : nat) :
  digits (Z.of_nat a) true (NilEmpty.string_of_uint v ++ rest)
  = digits (Z.of_nat (Nat.of_uint_acc v a)) true rest.
Proof.
  revert a.
  induction v as [|u IH|u IH|u IH|u IH|u IH|u IH|u IH|u IH|u IH|u IH];
    intros a; [reflexivity|..];
    cbn [NilEmpty.string_of_uint append digits Nat.of_uint_acc];
    match goal with
    | |- context [digit_value ?c] =>
        change (digit_value c) with (Some (Z.of_nat (nat_of_ascii c - 48)))
    end;
    cbv beta iota;
    match goal with
    | |- digits ?x true _ = digits (Z.of_nat (Nat.of_uint_acc _ ?y)) true _ =>
        replace x with (Z.of_nat y);
        [apply IH
        | rewrite Nat.tail_mul_spec;
          match goal with
          | |- context [(nat_of_ascii ?c - 48)%nat] =>
              let v := eval vm_compute in (nat_of_ascii c - 48)%nat in
              change (nat_of_ascii c - 48)%nat with v
          end; lia]
    end.
Qed.

Lemma digits_flag (u : Decimal.uint) (rest : string) (acc : Z) (b : bool) :
  (b = false -> u <> Decimal.Nil) ->
  digits acc b (NilEmpty.string_of_uint u ++ rest)
  = digits acc true (NilEmpty.string_of_uint u ++ rest).
Proof.
  destruct b; [reflexivity|]. intros H. specialize (H eq_refl).
  destruct u; [congruence|..]; reflexivity.
Qed.

(** The value of a run of groups, read after the digits counted in [a]. *)
Lemma digits_groups (us : list Decimal.uint) (u : Decimal.uint) (a : nat)
    (b : bool) :
  (b = false -> u <> Decimal.Nil) ->
  Forall (fun v => v <> Decimal.Nil) us ->
  digits (Z.of_nat a) b (NilEmpty.string_of_uint u ++ more_groups us)
  = Some (Z.of_nat (fold_left (fun a v => Nat.of_uint_acc v a) us
                              (Nat.of_uint_acc u a))).
Proof.
  revert u a b. induction us as [|v us IH]; intros u a b Hb HF.
  - rewrite (digits_flag u _ _ b Hb), digits_str_app. reflexivity.
  - inversion HF; subst.
    rewrite (digits_flag u _ _ b Hb), digits_str_app.
    cbn [more_groups fold_left].
    change (digits ?x true (String "_" ?s)) with (digits x false s).
    apply IH; [intros _|]; assumption.
Qed.

Lemma fold_uapp (us : list Decimal.uint) (u : Decimal.uint) (a : nat) :
  Nat.of_uint_acc (fold_left uapp us u) a
  = fold_left (fun a v => Nat.of_uint_acc v a) us (Nat.of_uint_acc u a).
Proof.
  revert u. induction us as [|v us IH]; intros u; simpl; [reflexivity|].
  now rewrite IH, of_uint_acc_uapp.
Qed.

Lemma concat_empty_cons (x : string) (xs : list string) :
  String.concat EmptyString (x :: xs) = (x ++ String.concat EmptyString xs)%string.
Proof. destruct xs; simpl; [now rewrite append_empty_r|reflexivity]. Qed.

Lemma concat_groups (us : list Decimal.uint) (u : Decimal.uint) :
  String.concat "_" (map NilEmpty.string_of_uint (u :: us))
  = (NilEmpty.string_of_uint u ++ more_groups us)%string.
Proof.
  revert u. induction us as [|v us IH]; intros u.
  - simpl. now rewrite append_empty_r.
  - change (String.concat "_" (map NilEmpty.string_of_uint (u :: v :: us)))
      with (NilEmpty.string_of_uint u ++ "_"
            ++ String.concat "_" (map NilEmpty.string_of_uint (v :: us)))%string.
    rewrite IH. reflexivity.
Qed.

Lemma concat_plain (us : list Decimal.uint) (u : Decimal.uint) :
  String.concat EmptyString (map NilEmpty.string_of_uint (u :: us))
  = NilEmpty.string_of_uint (fold_left uapp us u).
Proof.
  revert u. induction us as [|v us IH]; intros u.
  - simpl. reflexivity.
  - cbn [map fold_left]. rewrite <- IH. cbn [map].
    rewrite !concat_empty_cons, str_uapp. now rewrite append_assoc.
Qed.

Lemma groups_uints (groups : list string) :
  groups <> [] ->
  Forall (fun g => exists k, plain_integer g k) groups ->
  exists u us, u <> Decimal.Nil /\ Forall (fun v => v <> Decimal.Nil) us /\
               groups = map NilEmpty.string_of_uint (u :: us).
Proof.
  intros Hne HF.
  assert (G : exists ws, Forall (fun v => v <> Decimal.Nil) ws /\
                         groups = map NilEmpty.string_of_uint ws).
  { clear Hne. induction HF as [|g gs (k & Hk) _ (ws & Hws & ->)].
    - exists []. split; [constructor|reflexivity].
    - apply plain_integer_uint in Hk as (u & Hu & -> & _).
      exists (u :: ws). split; [now constructor|reflexivity]. }
  destruct G as ([|u us] & Hws & ->); [now elim Hne|].
  inversion Hws; subst. now exists u, us.
Qed.

Ltac eval_digit_value :=
  match goal with
  | |- context [digit_value ?c] =>
      let v := eval vm_compute in (digit_value c) in
      change (digit_value c) with v
  end; cbv beta iota;
  try (match goal with
       | |- context [Ascii.eqb ?c ?d] =>
           let v := eval vm_compute in (Ascii.eqb c d) in
           change (Ascii.eqb c d) with v
       end; cbv beta iota).

Ltac use_digit Hd D :=
  apply (Hd D);
  [ intros; reflexivity
  | intros; discriminate
  | cbn [Nat.of_uint_acc]; rewrite Nat.tail_mul_spec; lia
  | intros; reflexivity ].

Lemma digits_inv (s : string) (a : nat) (b : bool) (z : Z) :
  digits (Z.of_nat a) b s = Some z ->
  exists u us,
    (b = false -> u <> Decimal.Nil) /\
    Forall (fun v => v <> Decimal.Nil) us /\
    s = (NilEmpty.string_of_uint u ++ more_groups us)%string /\
    z = Z.of_nat (fold_left (fun a v => Nat.of_uint_acc v a) us
                            (Nat.of_uint_acc u a)).
Proof.
  revert a b z. induction s as [|c s IH]; intros a b z.
  - cbn [digits]. destruct b; [|discriminate]. intros H. inversion H.
    exists Decimal.Nil, []. split; [intros Hb; discriminate Hb|].
    split; [constructor|]. split; reflexivity.
  - cbn [digits].
    assert (Hd : forall D : Decimal.uint -> Decimal.uint,
               (forall u, NilEmpty.string_of_uint (D u)
                          = String c (NilEmpty.string_of_uint u)) ->
               (forall u, D u <> Decimal.Nil) ->
               forall x,
                 x = Z.of_nat (Nat.of_uint_acc (D Decimal.Nil) a) ->
                 (forall u a', Nat.of_uint_acc (D u) a'
                               = Nat.of_uint_acc u
                                   (Nat.of_uint_acc (D Decimal.Nil) a')) ->
                 digits x true s = Some z ->
                 exists u us,
                   (b = false -> u <> Decimal.Nil) /\
                   Forall (fun v => v <> Decimal.Nil) us /\
                   String c s
                   = (NilEmpty.string_of_uint u ++ more_groups us)%string /\
                   z = Z.of_nat (fold_left (fun a v => Nat.of_uint_acc v a) us
                                           (Nat.of_uint_acc u a))).
    { intros D Hstr Hnil x -> Hacc H.
      apply IH in H as (u & us & _ & HF & -> & ->).
      exists (D u), us. split; [intros _; apply Hnil|].
      split; [assumption|]. split.
      - rewrite Hstr. reflexivity.
      - now rewrite (Hacc u a). }
    destruct c as [[|] [|] [|] [|] [|] [|] [|] [|]]; eval_digit_value;
      try (intros H; discriminate H);
      try (destruct b; [|intros H; discriminate H]; intros H;
           apply (IH a false) in H as (u & us & Hu & HF & -> & ->);
           exists Decimal.Nil, (u :: us);
           split; [discriminate|];
           split; [constructor; auto|]; split; reflexivity);
      first
        [ use_digit Hd Decimal.D0 | use_digit Hd Decimal.D1
        | use_digit Hd Decimal.D2 | use_digit Hd Decimal.D3
        | use_digit Hd Decimal.D4 | use_digit Hd Decimal.D5
        | use_digit Hd Decimal.D6 | use_digit Hd Decimal.D7
        | use_digit Hd Decimal.D8 | use_digit Hd Decimal.D9 ].
Qed.

Lemma uapp_nil (u v : Decimal.uint) : u <> Decimal.Nil -> uapp u v <> Decimal.Nil.
Proof. destruct u; simpl; congruence. Qed.

Lemma fold_uapp_nil (us : list Decimal.uint) (u : Decimal.uint) :
  u <> Decimal.Nil -> fold_left uapp us u <> Decimal.Nil.
Proof.
  revert u. induction us as [|v us IH]; intros u Hu; simpl; [assumption|].
  apply IH. now apply uapp_nil.
Qed.

Lemma groups_plain (us : list Decimal.uint) (u : Decimal.uint) :
  u <> Decimal.Nil -> Forall (fun v => v <> Decimal.Nil) us ->
  Forall (fun g => exists k, plain_integer g k)
         (map NilEmpty.string_of_uint (u :: us)) /\
  plain_integer
    (String.concat EmptyString (map NilEmpty.string_of_uint (u :: us)))
    (Z.of_nat (fold_left (fun a v => Nat.of_uint_acc v a) us
                         (Nat.of_uint_acc u 0))).
Proof.
  intros Hu HF. split.
  - apply Forall_forall. intros g Hg. apply in_map_iff in Hg as (v & <- & Hv).
    exists (Z.of_nat (Nat.of_uint v)). apply plain_integer_uint. exists v.
    repeat split. destruct Hv as [<-|Hv]; [assumption|].
    rewrite Forall_forall in HF. now apply HF.
  - rewrite concat_plain. apply plain_integer_uint.
    exists (fold_left uapp us u). split; [now apply fold_uapp_nil|].
    split; [reflexivity|]. unfold Nat.of_uint. now rewrite fold_uapp.
Qed.

Lemma plain_value (us : list Decimal.uint) (u : Decimal.uint) (n : Z) :
  plain_integer
    (String.concat EmptyString (map NilEmpty.string_of_uint (u :: us))) n ->
  n = Z.of_nat (fold_left (fun a v => Nat.of_uint_acc v a) us
                          (Nat.of_uint_acc u 0)).
Proof.
  rewrite concat_plain. intros (_ & w & Hw & ->).
  rewrite NilEmpty.usu in Hw. inversion Hw; subst w.
  unfold Nat.of_uint. now rewrite fold_uapp.
Qed.

Lemma py_int_int_text (text : string) (n : Z) :
  contains "-" text = false -> py_int text = Returns n -> int_text text n.
Proof.
  intros Hfree H.
  destruct (strip_split text) as (lead & trail & E & Hl & Ht).
  apply (contains_strip "-") in Hfree. unfold py_int in H.
  assert (G : exists sign body,
             (sign = EmptyString \/ sign = "+") /\
             strip text = (sign ++ body)%string /\
             digits 0 false body = Some n).
  { destruct (strip text) as [|c r]; [discriminate H|].
    destruct c as [[|] [|] [|] [|] [|] [|] [|] [|]];
      try (simpl in Hfree; discriminate Hfree);
      cbv beta iota in H;
      match type of H with
      | context [digits 0%Z false ?X] =>
          destruct (digits 0%Z false X) as [z|] eqn:Ed; [|discriminate H];
          inversion H; subst z;
          first [ exists "+", X; split; [now right|]; split; [reflexivity|exact Ed]
                | exists EmptyString, X; split; [now left|];
                  split; [reflexivity|exact Ed] ]
      end. }
  destruct G as (sign & body & Hsign & Es & Hd).
  change 0%Z with (Z.of_nat 0) in Hd.
  apply digits_inv in Hd as (u & us & Hu & HF & -> & ->).
  specialize (Hu eq_refl).
  destruct (groups_plain us u Hu HF) as [Hg Hp].
  exists lead, sign, trail, (map NilEmpty.string_of_uint (u :: us)).
  split.
  { rewrite E at 1. rewrite Es, concat_groups. now rewrite append_assoc. }
  split; [assumption|]. split; [assumption|]. split; [assumption|].
  split; [discriminate|]. split; assumption.
Qed.

Lemma str_last (u : Decimal.uint) :
  u <> Decimal.Nil ->
  exists c r, string_rev (NilEmpty.string_of_uint u) = String c r /\
              is_space c = false.
Proof.
  induction u as [|u IH|u IH|u IH|u IH|u IH|u IH|u IH|u IH|u IH|u IH];
    intros Hne; [congruence|..];
    cbn [NilEmpty.string_of_uint string_rev];
    (destruct u as [|?|?|?|?|?|?|?|?|?|?] eqn:Eu;
     [ eexists _, _; split; reflexivity
     | destruct IH as (c & r & -> & Hc); [discriminate|];
       eexists c, _; split; [reflexivity|exact Hc] .. ]).
Qed.

Lemma body_last (us : list Decimal.uint) (u : Decimal.uint) :
  u <> Decimal.Nil -> Forall (fun v => v <> Decimal.Nil) us ->
  exists c r,
    string_rev (NilEmpty.string_of_uint u ++ more_groups us) = String c r /\
    is_space c = false.
Proof.
  revert u. induction us as [|v us IH]; intros u Hu HF.
  - simpl. rewrite append_empty_r. now apply str_last.
  - inversion HF; subst. destruct (IH v) as (c & r & E & Hc); try assumption.
    rewrite string_rev_app. cbn [more_groups string_rev]. rewrite E.
    eexists c, _. split; [reflexivity|exact Hc].
Qed.

Lemma blank_no_dash (s : string) : blank s -> contains "-" s = false.
Proof.
  induction s as [|c s IH]; simpl; [reflexivity|]. intros [Hc Hs].
  rewrite (IH Hs), orb_false_r.
  destruct (Ascii.eqb_spec c "-") as [->|]; [|reflexivity].
  unfold white_space in Hc. vm_compute in Hc.
  repeat (destruct Hc as [Hc|Hc]; [discriminate Hc|]). destruct Hc.
Qed.

Lemma body_no_dash (us : list Decimal.uint) (u : Decimal.uint) :
  contains "-" (NilEmpty.string_of_uint u ++ more_groups us) = false.
Proof.
  revert u. induction us as [|v us IH]; intros u; rewrite contains_app.
  - now rewrite no_dash_of_uint.
  - rewrite no_dash_of_uint. cbn [more_groups contains]. rewrite IH. reflexivity.
Qed.

Lemma int_text_py_int (text : string) (n : Z) :
  int_text text n -> py_int text = Returns n /\ contains "-" text = false.
Proof.
  intros (lead & sign & trail & groups & -> & Hl & Ht & Hsign & Hne & HF & Hp).
  destruct (groups_uints groups Hne HF) as (u & us & Hu & Hus & ->).
  apply plain_value in Hp. rewrite concat_groups.
  set (body := (NilEmpty.string_of_uint u ++ more_groups us)%string).
  assert (Hd : digits 0 false body = Some n).
  { rewrite Hp. apply (digits_groups us u 0 false); [intros _|]; assumption. }
  destruct (body_last us u Hu Hus) as (c' & r' & Erev & Hc').
  fold body in Erev. split.
  - assert (Es : strip (lead ++ sign ++ body ++ trail) = (sign ++ body)%string).
    { replace (sign ++ body ++ trail)%string
        with ((sign ++ body) ++ trail)%string by apply append_assoc.
      assert (Hfirst : exists c r, (sign ++ body)%string = String c r
                                   /\ is_space c = false).
      { destruct Hsign as [->| ->].
        - unfold body. destruct u; [congruence|..];
            eexists _, _; split; reflexivity.
        - eexists _, _. split; reflexivity. }
      destruct Hfirst as (c & r & Ec & Hc).
      apply (strip_core lead _ trail c c' r (r' ++ string_rev sign) Hl Ht Ec Hc);
        [|exact Hc'].
      rewrite string_rev_app, Erev. reflexivity. }
    unfold py_int. rewrite Es.
    destruct Hsign as [->| ->].
    + change (EmptyString ++ body)%string with body.
      unfold body in Hd |- *. clear Erev Es.
      destruct u; [congruence|..];
        cbn [NilEmpty.string_of_uint append] in Hd |- *; cbv beta iota;
        rewrite Hd; reflexivity.
    + cbn [append]. cbv beta iota. rewrite Hd. reflexivity.
  - rewrite !contains_app. rewrite (blank_no_dash _ Hl), (blank_no_dash _ Ht).
    unfold body. rewrite body_no_dash.
    destruct Hsign as [->| ->]; reflexivity.
Qed.

Lemma height_text_decoder (text : string) (feet inches : Z) :
  height_text text feet inches <-> decoder_reads text feet inches.
Proof.
  split.
  - intros (a & b & -> & Ha & Hb).
    apply int_text_py_int in Ha as [Ha Hfa], Hb as [Hb Hfb].
    exists a, b. auto.
  - intros (a & b & -> & Hfa & Hfb & Ha & Hb).
    exists a, b. split; [reflexivity|].
    split; now apply py_int_int_text.
Qed.

Lemma plain_integer_int_text (text : string) (n : Z) :
  plain_integer text n -> int_text text n.
Proof.
  intros H. exists EmptyString, EmptyString, EmptyString, [text].
  split; [simpl; now rewrite append_empty_r|].
  repeat split; simpl; auto; try discriminate; try apply H.
  constructor; [now exists n|constructor].
Qed.

(** The claim of C5 fails: the text [" 6 -02"] is not two plain integers
    around a dash, and decodes to 74 all the same. *)
Lemma decodes_plain_heights_only_fails : ~ decodes_plain_heights_only.
Proof.
  intros [_ H]. specialize (H (Str " 6 -02")).
  assert (E : convert_height_inches (Str " 6 -02") = Returns None).
  { apply H. intros text f i Et (a & b & E & (_ & ua & Hua & _) & _).
    injection Et as <-.
    destruct a as [|c a]; simpl in E; [discriminate E|].
    injection E as <- _. simpl in Hua.
    destruct (NilEmpty.uint_of_string a); discriminate Hua. }
  discriminate E.
Qed.

(** C5, amended. Height decoding: a text made of two integers joined by
    its single dash decodes to feet * 12 + inches, where each integer is
    a run of digits that may carry what [int] tolerates: white space
    around it, a plus sign before it, single underscores between its
    digits.  So decode the plain texts of the claim, the decimal
    renderings of any two natural numbers, ["6-2"] to 74 and ["5-11"] to
    71, and also [" 6 -02"] to 74 and ["1_0-2"] to 122; every other
    value, ["garbage"] and the empty text among them, decodes to
    missing, and nothing is raised. *)
Theorem convert_height_inches_decodes :
  (forall text feet inches,
     height_text text feet inches ->
     convert_height_inches (Str text) = Returns (Some (feet * 12 + inches)%Z)) /\
  (forall height,
     (forall text feet inches,
        height = Str text -> ~ height_text text feet inches) ->
     convert_height_inches height = Returns None) /\
  (forall text feet inches,
     plain_height text feet inches ->
     convert_height_inches (Str text) = Returns (Some (feet * 12 + inches)%Z)) /\
  (forall feet inches : nat,
     convert_height_inches (Str (decimal feet ++ String "-" (decimal inches)))
     = Returns (Some (Z.of_nat feet * 12 + Z.of_nat inches)%Z)) /\
  convert_height_inches (Str "6-2") = Returns (Some 74%Z) /\
  convert_height_inches (Str "5-11") = Returns (Some 71%Z) /\
  convert_height_inches (Str " 6 -02") = Returns (Some 74%Z) /\
  convert_height_inches (Str "1_0-2") = Returns (Some 122%Z) /\
  convert_height_inches (Str "garbage") = Returns None /\
  convert_height_inches (Str "") = Returns None.
Proof.
  assert (Hform : forall text feet inches,
             height_text text feet inches ->
             convert_height_inches (Str text)
             = Returns (Some (feet * 12 + inches)%Z)).
  { intros text feet inches H. apply convert_height_inches_shape.
    now apply height_text_decoder. }
  split; [exact Hform|].
  split.
  { intros height Hshape.
    destruct (convert_height_inches_returns height) as [H|[v H]]; [exact H|].
    apply convert_height_inches_some in H as (text & f & i & -> & Hs & _).
    apply height_text_decoder in Hs. elim (Hshape text f i eq_refl Hs). }
  split.
  { intros text feet inches (a & b & -> & Ha & Hb). apply Hform.
    exists a, b. split; [reflexivity|].
    split; now apply plain_integer_int_text. }
  split.
  { intros feet inches. apply convert_height_inches_shape.
    exists (decimal feet), (decimal inches).
    repeat split; try apply no_dash_of_uint; apply py_int_decimal. }
  repeat split; reflexivity.
Qed.

Lemma convert_height_inches_decodes_witness :
  height_text " 6 -02" 6 2 /\
  convert_height_inches (Str " 6 -02") = Returns (Some (6 * 12 + 2)%Z).
Proof.
  assert (Hsp : blank " ").
  { split; [|exact I]. unfold white_space.
    repeat (first [left; reflexivity | right]). }
  assert (H : height_text " 6 -02" 6 2).
  { exists " 6 ", "02". split; [reflexivity|]. split.
    - exists " ", EmptyString, " ", ["6"]. split; [reflexivity|].
      split; [exact Hsp|]. split; [exact Hsp|]. split; [now left|].
      split; [discriminate|]. split.
      + constructor; [|constructor]. exists 6%Z. split; [discriminate|].
        exists (Decimal.D6 Decimal.Nil). split; reflexivity.
      + split; [discriminate|].
        exists (Decimal.D6 Decimal.Nil). split; reflexivity.
    - exists EmptyString, EmptyString, EmptyString, ["02"].
      split; [reflexivity|].
      split; [exact I|]. split; [exact I|]. split; [now left|].
      split; [discriminate|]. split.
      + constructor; [|constructor]. exists 2%Z. split; [discriminate|].
        exists (Decimal.D0 (Decimal.D2 Decimal.Nil)). split; reflexivity.
      + split; [discriminate|].
        exists (Decimal.D0 (Decimal.D2 Decimal.Nil)). split; reflexivity. }
  split; [exact H|].
  exact (proj1 convert_height_inches_decodes " 6 -02" 6%Z 2%Z H).
Defined.

Lemma Series_apply_returns (column : list cell) :
  Series_apply convert_height_inches column =
  Returns (map (fun v => match convert_height_inches v with
                         | Returns r => of_option r
                         | Raises _ => NaN
                         end) column).
Proof.
  unfold Series_apply. induction column as [|v column IH]; simpl; [reflexivity|].
  rewrite IH.
  destruct (convert_height_inches_returns v) as [->|[t ->]]; reflexivity.
Qed.

Lemma assign_Ht_map (f : cell -> cell) (rows : list Output.t) :
  assign_Ht rows (map f (map Output.Ht rows))
  = map (fun r => Output.set_Ht (f (Output.Ht r)) r) rows.
Proof.
  induction rows as [|r rows IH]; simpl; [reflexivity|]. now rewrite IH.
Qed.

Lemma decode_heights_returns (rows : list Output.t) :
  decode_heights rows =
  Returns (map (fun r => Output.set_Ht
                           match convert_height_inches (Output.Ht r) with
                           | Returns v => of_option v
                           | Raises _ => NaN
                           end r) rows).
Proof.
  unfold decode_heights. rewrite Series_apply_returns. cbn [bind].
  now rewrite assign_Ht_map.
Qed.

Lemma in_Merger (df : list Draft.t) (combine_df : list Combine.t) (r : Output.t) :
  In r (Merger df combine_df) -> exists m, In m (merge df combine_df) /\ r = drop_row m.
Proof.
  intros H. apply (dedup_from_incl []) in H.
  unfold drop in H. apply in_map_iff in H as (m & <- & Hm). now exists m.
Qed.

(** C10. Height decoding is total over the column it is applied to:
    [convert_height_inches] returns for every value, missing for a
    missing value and for a number, so decoding the merged table raises
    nothing and keeps every row, and an output row whose key matches no
    combine row still has all its measurements missing. *)
Theorem convert_height_inches_total :
  (forall height, exists r, convert_height_inches height = Returns r) /\
  convert_height_inches NaN = Returns None /\
  (forall q, convert_height_inches (Num q) = Returns None) /\
  (forall (df : list Draft.t) (combine_df : list Combine.t),
     exists out,
       decode_heights (Merger df combine_df) = Returns out /\
       length out = length (Merger df combine_df) /\
       forall r, In r out ->
                 (forall c, In c combine_df -> Combine.key c <> Output.key r) ->
                 Forall (fun v => v = NaN) (Output.measurements r)).
Proof.
  split.
  { intros height.
    destruct (convert_height_inches_returns height) as [H|[v H]]; eauto. }
  split; [reflexivity|]. split; [reflexivity|].
  intros df combine_df. rewrite decode_heights_returns.
  eexists. split; [reflexivity|]. split; [apply length_map|].
  intros r Hr Hno. apply in_map_iff in Hr as (r0 & <- & Hr0).
  apply in_Merger in Hr0 as (m & Hm & ->).
  apply in_merge in Hm as (d & Hd & [(c & Hc & Hk & ->)|[_ ->]]).
  - elim (Hno c Hc). rewrite Hk. reflexivity.
  - simpl. repeat constructor.
Qed.

Lemma convert_height_inches_total_witness :
  (forall c, In c [jane_combine] ->
             Combine.key c
             <> Output.key (drop_row (unmatched_row john_draft))) /\
  Forall (fun v => v = NaN)
         (Output.measurements (drop_row (unmatched_row john_draft))).
Proof.
  assert (H : forall c, In c [jane_combine] ->
                        Combine.key c
                        <> Output.key (drop_row (unmatched_row john_draft))).
  { intros c [<-|[]]; discriminate. }
  split; [exact H|].
  destruct (proj2 (proj2 (proj2 convert_height_inches_total))
                  [john_draft] [jane_combine]) as (out & Hout & _ & Hrows).
  apply Hrows; [|exact H].
  rewrite decode_heights_returns in Hout. inversion Hout. left. reflexivity.
Defined.

(** ** Normalizer *)

Lemma map_cells_idempotent (f : cell -> cell) (d : Draft.t) :
  (forall c, f (f c) = f c) ->
  Draft.map_cells f (Draft.map_cells f d) = Draft.map_cells f d.
Proof. intros H. unfold Draft.map_cells. simpl. now rewrite !H. Qed.

(** C6. Team aliasing is total and idempotent: [replace] is defined on
    every cell, a value other than the one to replace passes through
    unchanged, and replacing twice is replacing once, on a cell and on
    the whole table, for any rename pair and for TEAM to COMMANDERS. *)
Theorem team_aliasing_idempotent (to_replace value : string) :
  (forall c, exists c', replace_cell to_replace value c = c') /\
  (forall c, c <> Str to_replace -> replace_cell to_replace value c = c) /\
  (forall c, replace_cell to_replace value (replace_cell to_replace value c)
             = replace_cell to_replace value c) /\
  (forall df, replace to_replace value (replace to_replace value df)
              = replace to_replace value df) /\
  (forall df, team_aliasing (team_aliasing df) = team_aliasing df).
Proof.
  assert (Hrep : forall a b df, replace a b (replace a b df) = replace a b df).
  { intros a b df. unfold replace. rewrite map_map. apply map_ext.
    intros d. apply map_cells_idempotent. apply replace_cell_idempotent. }
  split; [eauto|].
  split; [apply replace_cell_other|].
  split; [apply replace_cell_idempotent|].
  split; [apply Hrep|]. intros df. apply Hrep.
Qed.

Lemma team_aliasing_idempotent_witness :
  Str "BEARS" <> Str "TEAM" /\
  replace_cell "TEAM" "COMMANDERS" (Str "BEARS") = Str "BEARS".
Proof.
  assert (H : Str "BEARS" <> Str "TEAM") by discriminate.
  split; [exact H|].
  exact (proj1 (proj2 (team_aliasing_idempotent "TEAM" "COMMANDERS"))
               (Str "BEARS") H).
Defined.

(** What the frame-wide [replace] leaves alone: a row none of whose
    other fields is the text TEAM keeps them, and its team is renamed. *)
Lemma team_aliasing_frame (d : Draft.t) :
  Draft.Name d <> Str "TEAM" -> Draft.Position d <> Str "TEAM" ->
  Draft.School d <> Str "TEAM" ->
  (forall s, Draft.Year d <> Str s) -> (forall s, Draft.Round d <> Str s) ->
  (forall s, Draft.Overall d <> Str s) ->
  team_aliasing [d] =
  [Draft.mk (Draft.Year d) (Draft.Round d) (Draft.Overall d) (Draft.Name d)
            (Draft.Position d) (Draft.School d)
            (replace_cell "TEAM" "COMMANDERS" (Draft.Team d))].
Proof.
  intros Hn Hp Hs Hy Hr Ho. unfold team_aliasing, replace, Draft.map_cells.
  simpl map.
  rewrite (replace_cell_other _ _ _ Hn), (replace_cell_other _ _ _ Hp),
    (replace_cell_other _ _ _ Hs), (replace_cell_number _ _ _ Hy),
    (replace_cell_number _ _ _ Hr), (replace_cell_number _ _ _ Ho).
  reflexivity.
Qed.

(** C7. The frame condition of team aliasing fails on the code:
    [df.replace] names no column, so a draft row whose school is the
    text TEAM has its school rewritten to COMMANDERS, while its team,
    BEARS, stays. *)
Theorem team_aliasing_rewrites_school :
  Draft.School team_school_draft = Str "TEAM" /\
  map Draft.School (team_aliasing [team_school_draft]) = [Str "COMMANDERS"] /\
  map Draft.Team (team_aliasing [team_school_draft]) = [Str "BEARS"] /\
  ~ only_Team_changes [team_school_draft].
Proof.
  repeat split. intros H. discriminate H.
Qed.

(** ** Source Loader *)








(** * Further properties of the code *)

(** ** Linker *)

Lemma find_all_false {A : Type} (f : A -> bool) (l : list A) :
  (forall x, In x l -> f x = false) -> find f l = None.
Proof.
  induction l as [|a l IH]; simpl; intros H; [reflexivity|].
  rewrite (H a (or_introl eq_refl)). apply IH. intros x Hx. apply H. now right.
Qed.

Lemma elem_eq_eq (a b : cell) : elem_eq a b = true -> a = b.
Proof.
  unfold elem_eq, cell_eqb.
  destruct a, b; try discriminate;
    match goal with
    | |- (if cell_eq_dec ?x ?y then _ else _) = true -> _ =>
        destruct (cell_eq_dec x y); [auto|discriminate]
    end.
Qed.

(** X1. The school reconciliation loop adds and removes no combine row,
    changes no column but School, and leaves a combine row alone when no
    draft row has its player name and draft year. *)
Theorem reconcile_schools_frame (df : list Draft.t) (combine_df : list Combine.t) :
  length (reconcile_schools df combine_df) = length combine_df /\
  map (Combine.set_School NaN) (reconcile_schools df combine_df)
  = map (Combine.set_School NaN) combine_df /\
  (forall n c, nth_error combine_df n = Some c ->
               (forall d, In d df -> linked c d = false) ->
               nth_error (reconcile_schools df combine_df) n = Some c).
Proof.
  rewrite reconcile_schools_map. split; [apply length_map|]. split.
  - rewrite map_map. apply map_ext. intros c.
    destruct (fold_relink_keeps df c) as [v ->]. reflexivity.
  - intros n c Hn Hno. rewrite nth_error_map, Hn. simpl. f_equal.
    rewrite fold_relink_last, find_all_false; [reflexivity|].
    intros d Hd. apply Hno. now apply in_rev.
Qed.

Lemma reconcile_schools_frame_witness :
  nth_error [jane_combine] 0 = Some jane_combine /\
  (forall d, In d [john_draft] -> linked jane_combine d = false) /\
  nth_error (reconcile_schools [john_draft] [jane_combine]) 0 = Some jane_combine.
Proof.
  assert (H : forall d, In d [john_draft] -> linked jane_combine d = false).
  { intros d [<-|[]]. reflexivity. }
  split; [reflexivity|]. split; [exact H|].
  exact (proj2 (proj2 (reconcile_schools_frame [john_draft] [jane_combine]))
               0%nat jane_combine eq_refl H).
Defined.

(** X2. Running the school reconciliation loop a second time over the
    same draft table changes nothing. *)
Theorem reconcile_schools_idempotent
    (df : list Draft.t) (combine_df : list Combine.t) :
  reconcile_schools df (reconcile_schools df combine_df)
  = reconcile_schools df combine_df.
Proof.
  rewrite !reconcile_schools_map, map_map. apply map_ext. intros c.
  rewrite (fold_relink_last df (fold_left relink df c)).
  assert (E : find (linked (fold_left relink df c)) (rev df)
              = find (linked c) (rev df)).
  { generalize (rev df) as l. induction l as [|d l IH]; simpl; [reflexivity|].
    rewrite linked_fold_relink, IH. reflexivity. }
  rewrite E. rewrite (fold_relink_last df c).
  destruct (find (linked c) (rev df)); reflexivity.
Qed.

(** X3. The Linker serves the join: when [d] is the last draft row of
    its name and year, a combine row with that player name and draft
    year is, once reconciled, joined to [d] by the merge, whatever its
    school was. *)
Theorem reconcile_then_merge (df1 df2 : list Draft.t) (d : Draft.t)
    (combine_df : list Combine.t) (c : Combine.t) :
  (forall d', In d' df2 -> same_player d' d = false) ->
  In c combine_df ->
  linked c d = true ->
  In (join_row d (Combine.set_School (Draft.School d) c))
     (merge (df1 ++ d :: df2)
            (reconcile_schools (df1 ++ d :: df2) combine_df)).
Proof.
  intros Hlast Hc Hl. apply in_merge. exists d. split.
  { apply in_or_app. right. now left. }
  left. exists (Combine.set_School (Draft.School d) c). split; [|split].
  - rewrite reconcile_schools_map. apply in_map_iff. exists c.
    split; [|assumption].
    apply fold_relink_school; [assumption|].
    intros d' Hd' Hl'. exfalso. specialize (Hlast d' Hd').
    unfold same_player in Hlast.
    destruct (linked_names c d d' Hl Hl') as [E1 E2].
    rewrite E1, E2 in Hlast. discriminate Hlast.
  - unfold linked in Hl. apply andb_true_iff in Hl as [H1 H2].
    apply elem_eq_eq in H1, H2. unfold Combine.key, Draft.key. simpl.
    now rewrite H1, H2.
  - reflexivity.
Qed.

Lemma reconcile_then_merge_witness :
  (forall d', In d' [john_draft] -> same_player d' jane_draft = false) /\
  In jane_combine [jane_combine] /\
  linked jane_combine jane_draft = true /\
  In (join_row jane_draft
               (Combine.set_School (Draft.School jane_draft) jane_combine))
     (merge ([] ++ jane_draft :: [john_draft])
            (reconcile_schools ([] ++ jane_draft :: [john_draft])
                               [jane_combine])).
Proof.
  assert (H : forall d', In d' [john_draft] -> same_player d' jane_draft = false).
  { intros d' [<-|[]]. reflexivity. }
  assert (Hin : In jane_combine [jane_combine]) by (left; reflexivity).
  split; [exact H|]. split; [exact Hin|]. split; [reflexivity|].
  exact (reconcile_then_merge [] [john_draft] jane_draft [jane_combine]
                              jane_combine H Hin eq_refl).
Defined.

(** ** Merge *)

Lemma merge_row_draft (combine_df : list Combine.t) (d : Draft.t) :
  map Merged.draft (merge_row combine_df d)
  = repeat d (Nat.max 1 (length (matches d combine_df))).
Proof.
  unfold merge_row. destruct (matches d combine_df) as [|c cs].
  - simpl. now destruct d.
  - rewrite map_map.
    replace (Nat.max 1 (length (c :: cs))) with (length (c :: cs))
      by (simpl; lia).
    generalize (c :: cs) as l. induction l as [|x l IH]; simpl; [reflexivity|].
    rewrite IH. f_equal. now destruct d.
Qed.

(** X4. The left join loses no draft row and keeps their order: the
    draft columns of the merged table are the draft rows in order, each
    repeated once per matching combine row, and once when it has none;
    so the merged table is at least as long as the draft table. *)
Theorem merge_draft_rows (df : list Draft.t) (combine_df : list Combine.t) :
  map Merged.draft (merge df combine_df)
  = flat_map (fun d => repeat d (Nat.max 1 (length (matches d combine_df)))) df
  /\ (length df <= length (merge df combine_df))%nat.
Proof.
  split.
  - unfold merge. induction df as [|d df IH]; simpl; [reflexivity|].
    now rewrite map_app, IH, merge_row_draft.
  - unfold merge. induction df as [|d df IH]; simpl; [lia|].
    rewrite length_app.
    pose proof (merge_row_nonempty d combine_df) as Hne.
    destruct (merge_row combine_df d); [congruence|]. simpl. lia.
Qed.

Lemma matches_unique (d : Draft.t) (combine_df : list Combine.t) :
  NoDup (map Combine.key combine_df) ->
  (length (matches d combine_df) <= 1)%nat.
Proof.
  unfold matches. induction combine_df as [|c cs IH]; simpl; intros H; [lia|].
  inversion H as [|? ? Hnin Hnd]; subst.
  destruct (key_eqb (Draft.key d) (Combine.key c)) eqn:E; [|now apply IH].
  apply key_eqb_eq in E. simpl.
  change (filter (fun c0 => key_eqb (Draft.key d) (Combine.key c0)) cs)
    with (matches d cs).
  rewrite (matches_nil d cs); [simpl; lia|].
  intros c' Hc' Hk. apply Hnin. rewrite <- E, <- Hk. now apply in_map.
Qed.

(** X5. No fan-out without duplicate combine keys: when the keys
    (Player, School, draft_year) of the combine table are pairwise
    distinct, the merged table has exactly one row per draft row, in
    draft order. *)
Theorem merge_no_fan_out (df : list Draft.t) (combine_df : list Combine.t) :
  NoDup (map Combine.key combine_df) ->
  map Merged.draft (merge df combine_df) = df /\
  length (merge df combine_df) = length df.
Proof.
  intros Hnd.
  assert (E : map Merged.draft (merge df combine_df) = df).
  { rewrite (proj1 (merge_draft_rows df combine_df)).
    induction df as [|d df IH]; cbn [flat_map]; [reflexivity|].
    pose proof (matches_unique d combine_df Hnd) as Hle.
    replace (Nat.max 1 (length (matches d combine_df))) with 1%nat by lia.
    cbn [repeat app]. f_equal. exact IH. }
  split; [exact E|]. rewrite <- E at 2. now rewrite length_map.
Qed.

Lemma merge_no_fan_out_witness :
  NoDup (map Combine.key
             [Combine.set_School (Str "Boston College") jane_combine;
              jane_combine_again]) /\
  matches jane_draft
          [Combine.set_School (Str "Boston College") jane_combine;
           jane_combine_again]
  = [Combine.set_School (Str "Boston College") jane_combine] /\
  map Merged.draft
      (merge [jane_draft; john_draft]
             [Combine.set_School (Str "Boston College") jane_combine;
              jane_combine_again])
  = [jane_draft; john_draft].
Proof.
  assert (H : NoDup (map Combine.key
                         [Combine.set_School (Str "Boston College") jane_combine;
                          jane_combine_again])).
  { constructor; [intros [E|[]]; discriminate E|].
    constructor; [intros []|constructor]. }
  split; [exact H|]. split; [reflexivity|].
  exact (proj1 (merge_no_fan_out [jane_draft; john_draft]
                  [Combine.set_School (Str "Boston College") jane_combine;
                   jane_combine_again] H)).
Defined.

(** X6. When no combine key equals a draft key, in particular when the
    combine table is empty, the merged table is the draft table with
    every combine column missing. *)
Theorem merge_without_matches (df : list Draft.t) (combine_df : list Combine.t) :
  (forall d c, In d df -> In c combine_df -> Combine.key c <> Draft.key d) ->
  merge df combine_df = map unmatched_row df /\
  merge df [] = map unmatched_row df.
Proof.
  assert (G : forall combine, 
             (forall d c, In d df -> In c combine -> Combine.key c <> Draft.key d) ->
             merge df combine = map unmatched_row df).
  { intros combine H. unfold merge.
    induction df as [|d df IH]; simpl; [reflexivity|].
    rewrite merge_row_unmatched.
    - simpl. f_equal. apply IH. intros d' c Hd'. apply H. now right.
    - intros c Hc. apply H; [now left|assumption]. }
  intros H. split; [now apply G|]. apply G. intros d c _ [].
Qed.

Lemma merge_without_matches_witness :
  (forall d c, In d [john_draft] -> In c [jane_combine] ->
               Combine.key c <> Draft.key d) /\
  merge [john_draft] [jane_combine] = map unmatched_row [john_draft].
Proof.
  assert (H : forall d c, In d [john_draft] -> In c [jane_combine] ->
                          Combine.key c <> Draft.key d).
  { intros d c [<-|[]] [<-|[]]. discriminate. }
  split; [exact H|].
  exact (proj1 (merge_without_matches [john_draft] [jane_combine] H)).
Defined.

(** ** Merger *)

Lemma dedup_from_seen (seen : list key) (g rest : list Output.t) :
  (forall r, In r g -> In (Output.key r) seen) ->
  dedup_from seen (g ++ rest) = dedup_from seen rest.
Proof.
  induction g as [|r g IH]; simpl; intros H; [reflexivity|].
  rewrite dedup_from_cons.
  destruct (in_dec key_eq_dec (Output.key r) seen) as [_|Hn].
  - apply IH. intros r' Hr'. apply H. now right.
  - elim Hn. apply H. now left.
Qed.

Lemma dedup_merge_unique (combine_df : list Combine.t) (df : list Draft.t)
    (seen : list key) :
  NoDup (map Draft.key df) ->
  (forall d, In d df -> ~ In (Draft.key d) seen) ->
  dedup_from seen (drop (merge df combine_df))
  = map (fun d => drop_row (hd (unmatched_row d) (merge_row combine_df d))) df.
Proof.
  revert seen. induction df as [|d df IH]; intros seen Hnd Hseen; [reflexivity|].
  inversion Hnd as [|? ? Hnin Hnd']; subst.
  unfold drop, merge. cbn [flat_map map]. rewrite map_app.
  pose proof (merge_row_nonempty d combine_df) as Hne.
  pose proof (merge_row_key d combine_df) as Hkey.
  destruct (merge_row combine_df d) as [|m ms]; [congruence|].
  cbn [map app hd]. rewrite dedup_from_cons.
  rewrite (Hkey m (or_introl eq_refl)).
  destruct (in_dec key_eq_dec (Draft.key d) seen) as [Hin|_].
  { elim (Hseen d (or_introl eq_refl) Hin). }
  f_equal. rewrite dedup_from_seen.
  - apply IH; [assumption|].
    intros d' Hd' [Heq|Hin].
    + apply Hnin. rewrite Heq. now apply in_map.
    + apply (Hseen d'); [now right|assumption].
  - intros r Hr. apply in_map_iff in Hr as (m' & <- & Hm').
    left. symmetry. apply Hkey. now right.
Qed.

(** X7. When the keys (Name, School, Year) of the draft table are
    pairwise distinct, the Merger returns one row per draft row, in draft
    order, with the draft columns untouched and the measurements of the
    first matching combine row, or none. *)
Theorem Merger_unique_draft_keys (df : list Draft.t) (combine_df : list Combine.t) :
  NoDup (map Draft.key df) ->
  Merger df combine_df
  = map (fun d => drop_row (hd (unmatched_row d)
                               (map (join_row d) (matches d combine_df)))) df
  /\ map Output.draft (Merger df combine_df) = df.
Proof.
  intros Hnd.
  assert (E : Merger df combine_df
              = map (fun d => drop_row (hd (unmatched_row d)
                                           (merge_row combine_df d))) df).
  { apply (dedup_merge_unique combine_df df []); [assumption|]. intros d _ []. }
  split.
  - rewrite E. apply map_ext. intros d. unfold merge_row.
    destruct (matches d combine_df); reflexivity.
  - rewrite E, map_map. rewrite <- (map_id df) at 2. apply map_ext.
    intros d. unfold merge_row.
    destruct (matches d combine_df); simpl; now destruct d.
Qed.

Lemma Merger_unique_draft_keys_witness :
  NoDup (map Draft.key [jane_draft_other; john_draft]) /\
  map Output.draft
      (Merger [jane_draft_other; john_draft]
              [jane_combine; jane_combine_again])
  = [jane_draft_other; john_draft].
Proof.
  assert (H : NoDup (map Draft.key [jane_draft_other; john_draft])).
  { constructor; [intros [H|[]]; discriminate H|].
    constructor; [intros []|constructor]. }
  split; [exact H|].
  exact (proj2 (Merger_unique_draft_keys [jane_draft_other; john_draft]
                  [jane_combine; jane_combine_again] H)).
Defined.

(** ** Duplicate checks *)

Lemma dedup_from_same (seen : list key) (rows : list Output.t) :
  dedup_from seen rows = rows <->
  NoDup (map Output.key rows) /\
  (forall r, In r rows -> ~ In (Output.key r) seen).
Proof.
  split.
  - intros E. split.
    + rewrite <- E. apply dedup_from_NoDup.
    + intros r Hr Hs.
      assert (Hk : In (Output.key r) (map Output.key (dedup_from seen rows))).
      { rewrite E. now apply in_map. }
      apply dedup_from_keys in Hk. tauto.
  - revert seen. induction rows as [|r rows IH]; intros seen [Hnd Hs];
      [reflexivity|].
    inversion Hnd as [|? ? Hnin Hnd']; subst.
    rewrite dedup_from_cons.
    destruct (in_dec key_eq_dec (Output.key r) seen) as [Hin|_].
    { elim (Hs r (or_introl eq_refl) Hin). }
    f_equal. apply IH. split; [assumption|].
    intros r' Hr' [Heq|Hin].
    + apply Hnin. rewrite Heq. now apply in_map.
    + apply (Hs r'); [now right|assumption].
Qed.

Lemma filter_nil_iff {A : Type} (f : A -> bool) (l : list A) :
  filter f l = [] <-> forall x, In x l -> f x = false.
Proof.
  induction l as [|a l IH]; simpl.
  - split; [intros _ x []|reflexivity].
  - destruct (f a) eqn:E.
    + split; [discriminate|]. intros H. specialize (H a (or_introl eq_refl)).
      congruence.
    + rewrite IH. split.
      * intros H x [<-|Hx]; auto.
      * intros H x Hx. apply H. now right.
Qed.

(** X8. The duplicate listing of cell 16 and the deduplication of cell
    17 agree: the listed rows are exactly the merged rows whose key
    (Name, School, Year) occurs on at least two rows, and the listing is
    empty exactly when [drop_duplicates] removes nothing. *)
Theorem duplicate_rows_spec (merged_data : list Merged.t) :
  (forall r, In r (duplicate_rows merged_data) <->
             In r merged_data /\
             (2 <= count_occ key_eq_dec (map Merged_key merged_data)
                             (Merged_key r))%nat) /\
  (duplicate_rows merged_data = [] <->
   drop_duplicates (drop merged_data) = drop merged_data).
Proof.
  unfold duplicate_rows, duplicated_all. rewrite mask_select_map. split.
  - intros r. rewrite filter_In, Nat.ltb_lt. reflexivity.
  - rewrite filter_nil_iff.
    change (drop_duplicates (drop merged_data))
      with (dedup_from [] (drop merged_data)).
    rewrite dedup_from_same.
    assert (Ek : map Output.key (drop merged_data) = map Merged_key merged_data).
    { unfold drop. rewrite map_map. reflexivity. }
    rewrite Ek. split.
    + intros H. split; [|intros r _ []].
      apply (NoDup_count_occ key_eq_dec). intros k.
      destruct (in_dec key_eq_dec k (map Merged_key merged_data)) as [Hin|Hn].
      * apply in_map_iff in Hin as (r & <- & Hr).
        specialize (H r Hr). apply Nat.ltb_ge in H. exact H.
      * apply (count_occ_not_In key_eq_dec) in Hn. lia.
    + intros [Hnd _] r _. apply Nat.ltb_ge.
      apply (NoDup_count_occ key_eq_dec). exact Hnd.
Qed.

Lemma exact_duplicates_from_In (seen df : list Draft.t) (r : Draft.t) :
  In r (mask_select df (duplicated_rows_from seen df)) <->
  (In r df /\ In r seen) \/ (2 <= count_occ Draft_eq_dec df r)%nat.
Proof.
  revert seen. induction df as [|x df IH]; intros seen.
  - simpl. split; [intros []|intros [[[] _]|H]; lia].
  - cbn [duplicated_rows_from].
    destruct (in_dec Draft_eq_dec x seen) as [Hx|Hx]; cbn [mask_select In].
    + rewrite IH. destruct (Draft_eq_dec x r) as [->|Hne].
      * rewrite count_occ_cons_eq by reflexivity. split; [|tauto].
        intros _. left. split; [now left|assumption].
      * rewrite count_occ_cons_neq by assumption. tauto.
    + rewrite IH. cbn [In]. destruct (Draft_eq_dec x r) as [->|Hne].
      * rewrite count_occ_cons_eq by reflexivity.
        pose proof (count_occ_In Draft_eq_dec df r) as Hc. split.
        -- intros [[Hin _]|H]; right; [apply Hc in Hin|]; lia.
        -- intros [[_ Hs]|H]; [contradiction|].
           left. split; [apply Hc; lia|now left].
      * rewrite count_occ_cons_neq by assumption. split.
        -- intros [[Hin [He|Hs]]|H]; [congruence|left|right]; tauto.
        -- intros [[[He|Hin] Hs]|H]; [congruence|left|right]; tauto.
Qed.

(** X9. The exact-duplicate check of cell 9 lists exactly the draft rows
    that occur at least twice, all columns compared, and prints that no
    exact duplicates were found exactly when the rows of the draft table
    are pairwise different. *)
Theorem exact_duplicates_spec (df : list Draft.t) :
  (forall r, In r (exact_duplicates df) <->
             (2 <= count_occ Draft_eq_dec df r)%nat) /\
  (exact_duplicates_message df = "No exact duplicates were found."
   <-> NoDup df).
Proof.
  assert (Hin : forall r, In r (exact_duplicates df) <->
                          (2 <= count_occ Draft_eq_dec df r)%nat).
  { intros r. unfold exact_duplicates. rewrite exact_duplicates_from_In.
    simpl. tauto. }
  split; [exact Hin|].
  unfold exact_duplicates_message.
  rewrite (NoDup_count_occ Draft_eq_dec).
  destruct (exact_duplicates df) as [|x l] eqn:E; simpl.
  - split; [|reflexivity]. intros _ r.
    destruct (le_lt_dec 2 (count_occ Draft_eq_dec df r)) as [H|H]; [|lia].
    apply Hin in H. destruct H.
  - split; [discriminate|]. intros H. exfalso.
    specialize (H x). assert (Hx : In x (x :: l)) by now left.
    apply Hin in Hx. lia.
Qed.

(** ** Height decoding *)

Lemma convert_height_inches_decoded (r : option Z) :
  convert_height_inches (of_option r) = Returns None.
Proof. destruct r; reflexivity. Qed.

(** X10. Decoding the heights touches no column but Ht and no row count;
    decoding a second time, as when cell 18 is run again, raises nothing
    and leaves every height missing, the decoded ones included. *)
Theorem decode_heights_twice (merged_data : list Output.t) :
  (exists out, decode_heights merged_data = Returns out /\
               map (Output.set_Ht NaN) out
               = map (Output.set_Ht NaN) merged_data) /\
  (out <- decode_heights merged_data ;; decode_heights out)
  = Returns (map (Output.set_Ht NaN) merged_data).
Proof.
  rewrite decode_heights_returns. split.
  - eexists. split; [reflexivity|]. rewrite map_map. reflexivity.
  - cbn [bind]. rewrite decode_heights_returns. f_equal.
    rewrite map_map. apply map_ext. intros r. cbn [Output.set_Ht Output.Ht].
    destruct (convert_height_inches_returns (Output.Ht r)) as [->|[t ->]];
      reflexivity.
Qed.

Lemma digit_value_nonneg (c : ascii) (d : Z) :
  digit_value c = Some d -> (0 <= d)%Z.
Proof.
  unfold digit_value.
  destruct ((48 <=? nat_of_ascii c)%nat && (nat_of_ascii c <=? 57)%nat);
    [|discriminate].
  intros H. inversion H. apply Nat2Z.is_nonneg.
Qed.

Lemma digits_nonneg (s : string) (acc : Z) (after_digit : bool) (z : Z) :
  (0 <= acc)%Z -> digits acc after_digit s = Some z -> (0 <= z)%Z.
Proof.
  revert acc after_digit.
  induction s as [|c s IH]; intros acc b Hacc; cbn [digits].
  - destruct b; [|discriminate]. intros H. inversion H. now subst.
  - destruct (digit_value c) as [d|] eqn:E.
    + apply IH. pose proof (digit_value_nonneg c d E). lia.
    + destruct (Ascii.eqb c "_"); [|discriminate].
      destruct b; [|discriminate]. now apply IH.
Qed.

Lemma py_int_nonneg (text : string) (z : Z) :
  contains "-" text = false -> py_int text = Returns z -> (0 <= z)%Z.
Proof.
  intros Hfree. apply (contains_strip "-") in Hfree. unfold py_int.
  destruct (strip text) as [|c r] eqn:E; [discriminate|].
  assert (Hd : forall b, match digits 0 false b with
                         | Some z0 => Returns z0
                         | None => Raises ValueError
                         end = Returns z -> (0 <= z)%Z).
  { intros b H. destruct (digits 0 false b) as [z0|] eqn:Ed; [|discriminate].
    inversion H; subst. apply (digits_nonneg b 0%Z false); [lia|assumption]. }
  simpl in Hfree. apply orb_false_iff in Hfree as [Hc _].
  destruct c as [[] [] [] [] [] [] [] []]; try apply Hd; discriminate Hc.
Qed.

Lemma decoded_nonneg (height : cell) (total_inches : Z) :
  convert_height_inches height = Returns (Some total_inches) ->
  (0 <= total_inches)%Z.
Proof.
  intros H.
  apply convert_height_inches_some in H
    as (text & feet & inches & _ & (a & b & _ & Ha & Hb & Hfa & Hfb) & ->).
  pose proof (py_int_nonneg a feet Ha Hfa).
  pose proof (py_int_nonneg b inches Hb Hfb). lia.
Qed.

(** X11. A decoded height is never negative: a minus sign cannot reach
    [int], the dash being the separator, and a text that starts with a
    minus sign, as one for a negative number of feet, decodes to
    missing. *)
Theorem convert_height_inches_nonneg :
  (forall height total_inches,
     convert_height_inches height = Returns (Some total_inches) ->
     (0 <= total_inches)%Z) /\
  (forall rest, convert_height_inches (Str (String "-" rest)) = Returns None).
Proof.
  split; [exact decoded_nonneg|]. intros rest. reflexivity.
Qed.

Lemma convert_height_inches_nonneg_witness :
  convert_height_inches (Str "5-11") = Returns (Some 71%Z) /\ (0 <= 71)%Z.
Proof.
  split; [reflexivity|].
  exact (proj1 convert_height_inches_nonneg (Str "5-11") 71%Z eq_refl).
Defined.

(** X12. The inches are not checked against twelve: a text with one foot
    less and twelve inches more decodes to the same height, as 5-14 and
    6-2 do. *)
Theorem convert_height_inches_unchecked_inches (feet inches : nat) :
  convert_height_inches
    (Str (decimal feet ++ String "-" (decimal (12 + inches))))
  = convert_height_inches
      (Str (decimal (S feet) ++ String "-" (decimal inches))).
Proof.
  rewrite (convert_height_inches_shape _ (Z.of_nat feet) (Z.of_nat (12 + inches))).
  - rewrite (convert_height_inches_shape _ (Z.of_nat (S feet)) (Z.of_nat inches)).
    + f_equal. f_equal. lia.
    + exists (decimal (S feet)), (decimal inches).
      repeat split; try apply no_dash_of_uint; apply py_int_decimal.
  - exists (decimal feet), (decimal (12 + inches)).
    repeat split; try apply no_dash_of_uint; apply py_int_decimal.
Qed.

(** ** Normalizer *)

(** X13. After team aliasing no cell of the draft table holds the text
    TEAM, in any column, the number of rows is unchanged, and every team
    that was TEAM is COMMANDERS. *)
Theorem team_aliasing_removes_TEAM (df : list Draft.t) :
  length (team_aliasing df) = length df /\
  (forall d, In d (team_aliasing df) ->
     Forall (fun c => c <> Str "TEAM")
            [Draft.Year d; Draft.Round d; Draft.Overall d; Draft.Name d;
             Draft.Position d; Draft.School d; Draft.Team d]) /\
  map Draft.Team (team_aliasing df)
  = map (fun d => if cell_eqb (Draft.Team d) (Str "TEAM")
                  then Str "COMMANDERS" else Draft.Team d) df.
Proof.
  unfold team_aliasing, replace. split; [apply length_map|]. split.
  - assert (Hc : forall c, replace_cell "TEAM" "COMMANDERS" c <> Str "TEAM").
    { intros [|s|q]; simpl; try discriminate.
      destruct (String.eqb_spec s "TEAM"); [discriminate|congruence]. }
    intros d Hd. apply in_map_iff in Hd as (d0 & <- & _).
    unfold Draft.map_cells. simpl. repeat constructor; apply Hc.
  - rewrite map_map. apply map_ext. intros d. simpl.
    destruct (Draft.Team d) as [|s|q]; try reflexivity. simpl.
    unfold cell_eqb.
    destruct (String.eqb_spec s "TEAM") as [->|Hne].
    + destruct (cell_eq_dec (Str "TEAM") (Str "TEAM")); [reflexivity|congruence].
    + destruct (cell_eq_dec (Str s) (Str "TEAM")) as [E|_]; [|reflexivity].
      inversion E. contradiction.
Qed.

Lemma team_aliasing_removes_TEAM_witness :
  In (Draft.map_cells (replace_cell "TEAM" "COMMANDERS") team_school_draft)
     (team_aliasing [team_school_draft]) /\
  Draft.School (Draft.map_cells (replace_cell "TEAM" "COMMANDERS")
                                team_school_draft) <> Str "TEAM".
Proof.
  assert (H : In (Draft.map_cells (replace_cell "TEAM" "COMMANDERS")
                                  team_school_draft)
                 (team_aliasing [team_school_draft])) by (left; reflexivity).
  split; [exact H|].
  pose proof (proj1 (proj2 (team_aliasing_removes_TEAM [team_school_draft]))
                    _ H) as HF.
  rewrite Forall_forall in HF. apply HF. simpl. tauto.
Defined.

(** ** Analysis subsets *)

Lemma filter_length_le2 {A : Type} (f g : A -> bool) (l : list A) :
  (forall x, f x = true -> g x = false) ->
  (length (filter f l) + length (filter g l) <= length l)%nat.
Proof.
  intros H. induction l as [|a l IH]; simpl; [lia|].
  destruct (f a) eqn:E.
  - rewrite (H a E). simpl. lia.
  - destruct (g a); simpl; lia.
Qed.

Lemma isin_teams_disjoint (c : cell) :
  isin successful_qb_teams c = true -> isin poor_qb_teams c = false.
Proof.
  unfold isin, successful_qb_teams, poor_qb_teams, cell_eqb. simpl.
  repeat match goal with
         | |- context [cell_eq_dec c ?v] => destruct (cell_eq_dec c v); subst
         end; simpl; try discriminate; try reflexivity.
Qed.

(** X14. The two team groups of cell 329 are disjoint: no row of the
    merged table is in both [good_qb] and [bad_qb], the two together
    hold at most as many rows as the table, and each keeps the table's
    order. *)
Theorem qb_groups_disjoint (merged_data : list Output.t) :
  (forall r, In r (good_qb merged_data) -> ~ In r (bad_qb merged_data)) /\
  (length (good_qb merged_data) + length (bad_qb merged_data)
   <= length merged_data)%nat /\
  subsequence (good_qb merged_data) merged_data /\
  subsequence (bad_qb merged_data) merged_data.
Proof.
  unfold good_qb, bad_qb. repeat split; try apply mask_select_subsequence.
  - rewrite !mask_select_map. intros r Hg Hb.
    apply filter_In in Hg as [_ Hg]. apply filter_In in Hb as [_ Hb].
    rewrite (isin_teams_disjoint _ Hg) in Hb. discriminate Hb.
  - rewrite !mask_select_map. apply filter_length_le2.
    intros r. apply isin_teams_disjoint.
Qed.

Lemma qb_groups_disjoint_witness :
  In (drop_row (unmatched_row john_draft))
     (bad_qb [drop_row (unmatched_row john_draft)]) /\
  ~ In (drop_row (unmatched_row john_draft))
       (good_qb [drop_row (unmatched_row john_draft)]).
Proof.
  assert (H : In (drop_row (unmatched_row john_draft))
                 (bad_qb [drop_row (unmatched_row john_draft)]))
    by (left; reflexivity).
  split; [exact H|].
  intros Hg.
  exact (proj1 (qb_groups_disjoint [drop_row (unmatched_row john_draft)])
               _ Hg H).
Defined.

Lemma filter_filter {A : Type} (f g : A -> bool) (l : list A) :
  filter f (filter g l) = filter (fun x => f x && g x) l.
Proof.
  induction l as [|a l IH]; simpl; [reflexivity|].
  destruct (g a); simpl; rewrite ?andb_true_r, ?andb_false_r.
  - destruct (f a); now rewrite IH.
  - exact IH.
Qed.

Lemma filter_and_le {A : Type} (f g : A -> bool) (l : list A) :
  (length (filter (fun x => f x && g x) l) <= length (filter f l))%nat.
Proof.
  induction l as [|a l IH]; simpl; [lia|].
  destruct (f a); simpl; [destruct (g a); simpl; lia|exact IH].
Qed.

Lemma first_round_count_le (merged_data : list Output.t) (school : cell) :
  (first_round_count merged_data school
   <= overall_count merged_data school)%nat.
Proof.
  unfold first_round_count, overall_count. rewrite !mask_select_map.
  apply filter_and_le.
Qed.

(** X15. The first-round count of a school, taken on the merged table
    with the two conditions together, is its overall count on
    [first_round_data], and never exceeds its overall count. *)
Theorem first_round_count_spec (merged_data : list Output.t) (school : cell) :
  first_round_count merged_data school
  = overall_count (first_round_data merged_data) school /\
  (first_round_count merged_data school
   <= overall_count merged_data school)%nat.
Proof.
  unfold first_round_count, overall_count, first_round_data.
  split; [|apply first_round_count_le].
  rewrite !mask_select_map. now rewrite filter_filter.
Qed.

(** ** School counts *)

Lemma dict_set_keys (d1 d2 : dict) (k : cell) (v1 v2 : nat) :
  map fst d1 = map fst d2 ->
  map fst (dict_set d1 k v1) = map fst (dict_set d2 k v2).
Proof.
  revert d2. induction d1 as [|[k1 w1] d1 IH]; intros [|[k2 w2] d2];
    simpl; try discriminate; [reflexivity|].
  intros H. inversion H; subst.
  destruct (cell_eqb k2 k); simpl; [congruence|].
  f_equal. now apply IH.
Qed.

Lemma dict_set_values (f : cell -> nat) (d : dict) (k : cell) :
  Forall (fun kv => snd kv = f (fst kv)) d ->
  Forall (fun kv => snd kv = f (fst kv)) (dict_set d k (f k)).
Proof.
  induction d as [|[k1 w1] d IH]; simpl; intros H.
  - repeat constructor.
  - inversion H; subst. unfold cell_eqb.
    destruct (cell_eq_dec k1 k) as [->|Hne].
    + constructor; [reflexivity|assumption].
    + constructor; [assumption|now apply IH].
Qed.

Lemma school_counts_invariant (merged_data : list Output.t)
    (top_20_schools : list cell) (counts : dict * dict) :
  map fst (fst counts) = map fst (snd counts) ->
  Forall (fun kv => snd kv = overall_count merged_data (fst kv)) (fst counts) ->
  Forall (fun kv => snd kv = first_round_count merged_data (fst kv))
         (snd counts) ->
  let result := fold_left (count_school merged_data) top_20_schools counts in
  map fst (fst result) = map fst (snd result) /\
  Forall (fun kv => snd kv = overall_count merged_data (fst kv)) (fst result) /\
  Forall (fun kv => snd kv = first_round_count merged_data (fst kv))
         (snd result).
Proof.
  revert counts. induction top_20_schools as [|s l IH]; intros counts Hk Ha Hb.
  - simpl. auto.
  - simpl. apply IH; unfold count_school; simpl.
    + now apply dict_set_keys.
    + now apply (dict_set_values (overall_count merged_data)).
    + now apply (dict_set_values (first_round_count merged_data)).
Qed.

Lemma dict_get_key (f : cell -> nat) (d : dict) (k : cell) :
  Forall (fun kv => snd kv = f (fst kv)) d ->
  In k (map fst d) -> dict_get d k = Some (f k).
Proof.
  induction d as [|[k1 w1] d IH]; simpl; intros H Hin; [destruct Hin|].
  inversion H; subst. simpl in *. unfold cell_eqb.
  destruct (cell_eq_dec k1 k) as [->|Hne]; [congruence|].
  destruct Hin as [E|Hin]; [congruence|]. now apply IH.
Qed.

Lemma report_lines_total (merged_data : list Output.t) (a b : dict) :
  Forall (fun kv => snd kv = overall_count merged_data (fst kv)) a ->
  Forall (fun kv => snd kv = first_round_count merged_data (fst kv)) b ->
  incl (map fst a) (map fst b) ->
  report_lines a b
  = Some (map (fun kv => (fst kv, overall_count merged_data (fst kv),
                          first_round_count merged_data (fst kv))) a).
Proof.
  intros Ha Hb. induction a as [|[k v] a IH]; intros Hincl; [reflexivity|].
  inversion Ha; subst. simpl in *.
  rewrite (dict_get_key (first_round_count merged_data) b k Hb)
    by (apply Hincl; now left).
  rewrite IH; [congruence|assumption|].
  intros x Hx. apply Hincl. now right.
Qed.

(** X16. The two dictionaries of the school loop get the same schools in
    the same order, so the report loop finds every school it looks up;
    each line it prints carries the overall and the first-round count of
    its school in the merged table, the second never above the first. *)
Theorem school_counts_report (merged_data : list Output.t)
    (top_20_schools : list cell) :
  let counts := school_counts merged_data top_20_schools in
  map fst (fst counts) = map fst (snd counts) /\
  exists lines,
    report_lines (fst counts) (snd counts) = Some lines /\
    Forall (fun line =>
              match line with
              | (school, draft_count, first) =>
                  draft_count = overall_count merged_data school /\
                  first = first_round_count merged_data school /\
                  (first <= draft_count)%nat
              end) lines.
Proof.
  destruct (school_counts_invariant merged_data top_20_schools ([], [])
              eq_refl (Forall_nil _) (Forall_nil _)) as (Hk & Ha & Hb).
  fold (school_counts merged_data top_20_schools) in Hk, Ha, Hb.
  cbv zeta. split; [exact Hk|].
  eexists. split.
  - apply (report_lines_total merged_data); [exact Ha|exact Hb|].
    rewrite Hk. apply incl_refl.
  - apply Forall_forall. intros [[s a] b] Hin.
    apply in_map_iff in Hin as ([k v] & E & _). inversion E; subst.
    split; [reflexivity|]. split; [reflexivity|].
    apply first_round_count_le.
Qed.

(** ** The pipeline *)

(** X17. Over tables that carry the columns the cells read, the table
    that cells 7 to 18 produce has at most one row per draft row; its
    keys are pairwise distinct and are exactly the keys of the draft
    table after team aliasing; and no height in it is text any more:
    each is missing or a number of inches that is not negative. *)
Theorem pipeline_output (df : list Draft.t) (combine_df : list Combine.t)
    (out : list Output.t) :
  pipeline df combine_df = Returns out ->
  (length out <= length df)%nat /\
  NoDup (map Output.key out) /\
  (forall k, In k (map Output.key out)
             <-> In k (map Draft.key (team_aliasing df))) /\
  Forall (fun r => Output.Ht r = NaN \/
                   exists z, (0 <= z)%Z /\ Output.Ht r = Int z) out.
Proof.
  unfold pipeline. cbv zeta. rewrite decode_heights_returns.
  intros E. injection E as <-.
  set (df' := team_aliasing df).
  set (combine' := reconcile_schools df' combine_df).
  assert (Ek : forall l,
             map Output.key
               (map (fun r => Output.set_Ht
                                match convert_height_inches (Output.Ht r) with
                                | Returns v => of_option v
                                | Raises _ => NaN
                                end r) l)
             = map Output.key l).
  { intros l. rewrite map_map. reflexivity. }
  split; [|split; [|split]].
  - rewrite length_map, <- (length_map Output.key).
    replace (length df) with (length (map Draft.key df'))
      by (unfold df', team_aliasing, replace; now rewrite !length_map).
    apply NoDup_incl_length; [apply Merger_NoDup|].
    intros k Hk. now apply Merger_keys in Hk.
  - rewrite Ek. apply Merger_NoDup.
  - intros k. rewrite Ek. apply Merger_keys.
  - apply Forall_forall. intros r Hr. apply in_map_iff in Hr as (r0 & <- & _).
    cbn [Output.set_Ht Output.Ht].
    destruct (convert_height_inches_returns (Output.Ht r0)) as [->|[t E]].
    + now left.
    + rewrite E. right. exists t. split; [|reflexivity].
      exact (decoded_nonneg _ _ E).
Qed.

Lemma pipeline_output_witness :
  exists out,
    pipeline [jane_draft; jane_draft; john_draft]
             [jane_combine; jane_combine_again] = Returns out /\
    (length out <= 3)%nat /\
    Forall (fun r => Output.Ht r = NaN \/
                     exists z, (0 <= z)%Z /\ Output.Ht r = Int z) out.
Proof.
  eexists. split; [reflexivity|].
  pose proof (pipeline_output [jane_draft; jane_draft; john_draft]
                [jane_combine; jane_combine_again] _ eq_refl)
    as (Hlen & _ & _ & Hht).
  split; [exact Hlen|exact Hht].
Defined.

(** ** Tick formatter *)

(** X19. The tick formatter removes the decimals by cutting toward zero:
    for a number it returns the integer of the same sign whose size is
    the whole part of the size of the number, and for a whole number the
    number itself; the tick position plays no part. *)
Theorem format_func_truncates (q : Qc) (tick_number : cell) :
  (exists z,
     format_func (Num q) tick_number = Returns z /\
     (Z.abs z * Zpos (Qden q) <= Z.abs (Qnum q)
      < (Z.abs z + 1) * Zpos (Qden q))%Z /\
     (0 <= z * Qnum q)%Z) /\
  (forall year : Z, format_func (Int year) tick_number = Returns year).
Proof.
  split.
  - eexists. split; [reflexivity|].
    set (n := Qnum q). set (d := Zpos (Qden q)).
    assert (Hd : (0 < d)%Z) by (unfold d; lia).
    split.
    + rewrite <- (Z.quot_abs n d) by lia.
      rewrite (Z.abs_eq d) by lia.
      rewrite Z.quot_div_nonneg by (try apply Z.abs_nonneg; lia).
      pose proof (Z.mul_div_le (Z.abs n) d Hd).
      pose proof (Z.mul_succ_div_gt (Z.abs n) d Hd). lia.
    + destruct (Z.le_gt_cases 0 n) as [Hn|Hn].
      * pose proof (Z.quot_pos n d Hn Hd). nia.
      * assert (Hq : (n ÷ d <= 0)%Z).
        { replace n with (- (- n))%Z by lia.
          rewrite Z.quot_opp_l by lia.
          pose proof (Z.quot_pos (- n) d). lia. }
        nia.
  - intros year. unfold format_func, Int. f_equal.
    pose proof (Qred_correct (inject_Z year)) as E.
    cbn [this Q2Qc].
    set (r := Qred (inject_Z year)) in *.
    unfold Qeq in E. cbn [inject_Z Qnum Qden] in E.
    replace (Qnum r) with (year * Zpos (Qden r))%Z by lia.
    apply Z.quot_mul. lia.
Qed.
